(** * The variables RPC endpoint (nomad/variables_endpoint.go)

    A shallow embedding of the write path (Apply), the response assembly
    (makeVariablesApplyResponse), the read path (Read) and lock renewal
    (RenewLock) of the variables endpoint, with the properties of its
    authorization, validation, redaction and lock-timer behaviour.

    Go pointers that may be nil are [option]; a Go map that may be nil is
    an [option] of a [gmap]; a nil-pointer dereference is the [Panic]
    outcome of the endpoint monad; Go errors are values of type [error]
    returned next to the result, as in the source. *)

From Stdlib Require Import ZArith.
From stdpp Require Import base strings gmap.

Local Open Scope Z_scope.
Local Open Scope string_scope.

(** ** Errors *)

(** The error values the endpoint builds or passes on.  [ErrRPCCoded] is
    structs.NewErrRPCCoded, [Errorf] is fmt.Errorf with its format string
    and formatted arguments, [ErrorfWrap] is fmt.Errorf whose format wraps
    an error with the percent-w verb, and [ErrExternal] is an error handed
    back by a collaborator. *)
Inductive error : Type :=
| ErrPermissionDenied
| ErrRPCCoded (code : Z) (msg : string)
| Errorf (format : string) (args : list string)
| ErrorfWrap (format : string) (wrapped : error)
| ErrExternal (msg : string).

Definition NewErrRPCCoded (code : Z) (msg : string) : error :=
  ErrRPCCoded code msg.

Definition StatusBadRequest : Z := 400.
Definition StatusNotFound : Z := 404.
Definition StatusConflict : Z := 409.

Definition errVarAlreadyLocked : error :=
  NewErrRPCCoded StatusBadRequest "variable already holds a lock".
Definition errVarNotFound : error :=
  NewErrRPCCoded StatusNotFound "variable doesn't exist".
Definition errLockNotFound : error :=
  NewErrRPCCoded StatusConflict "variable doesn't hold a lock".
Definition errVarIsLocked : error :=
  NewErrRPCCoded StatusConflict "attempting to modify locked variable".
Definition errMissingLockInfo : error :=
  NewErrRPCCoded StatusBadRequest "missing lock information".
Definition errLockOnVarCreation : error :=
  NewErrRPCCoded StatusBadRequest "variable should not contain lock definition".
Definition errItemsOnRelease : error :=
  NewErrRPCCoded StatusBadRequest "lock release operation doesn't take variable items".
Definition errNoPath : error :=
  NewErrRPCCoded StatusBadRequest "delete requires a Path".

(** The invalid-argument class: an RPC error coded 400. *)
Definition isInvalidArgument (e : error) : bool :=
  match e with
  | ErrRPCCoded code _ => Z.eqb code StatusBadRequest
  | _ => false
  end.

(** ** Data model (package structs, as the endpoint uses it) *)

Definition bytes : Type := list Byte.byte.

Record VariableLock : Type := {
  ID : string;
  TTL : Z;
  LockDelay : Z
}.

Record VariableMetadata : Type := {
  Namespace : string;
  Path : string;
  CreateIndex : Z;
  ModifyIndex : Z;
  CreateTime : Z;
  ModifyTime : Z;
  Lock : option VariableLock
}.

(** VariableItems is a Go map from string to string: [None] is the nil
    map, [Some m] a map that has been made (possibly empty). *)
Definition VariableItems : Type := option (gmap string string).

Definition len (items : VariableItems) : nat :=
  match items with
  | None => 0%nat
  | Some m => size m
  end.

(** The comparison of a map with nil. *)
Definition notNil (items : VariableItems) : bool :=
  match items with
  | None => false
  | Some _ => true
  end.

Record VariableDecrypted : Type := {
  vdMeta : VariableMetadata;
  Items : VariableItems
}.

Record VariableEncrypted : Type := {
  veMeta : VariableMetadata;
  Data : bytes;
  KeyID : string
}.

Definition withNamespace (ns : string) (m : VariableMetadata) : VariableMetadata :=
  {| Namespace := ns; Path := Path m;
     CreateIndex := CreateIndex m; ModifyIndex := ModifyIndex m;
     CreateTime := CreateTime m; ModifyTime := ModifyTime m;
     Lock := Lock m |}.

Definition withPath (p : string) (m : VariableMetadata) : VariableMetadata :=
  {| Namespace := Namespace m; Path := p;
     CreateIndex := CreateIndex m; ModifyIndex := ModifyIndex m;
     CreateTime := CreateTime m; ModifyTime := ModifyTime m;
     Lock := Lock m |}.

Definition withLock (l : option VariableLock) (m : VariableMetadata) : VariableMetadata :=
  {| Namespace := Namespace m; Path := Path m;
     CreateIndex := CreateIndex m; ModifyIndex := ModifyIndex m;
     CreateTime := CreateTime m; ModifyTime := ModifyTime m;
     Lock := l |}.

Definition withTimes (ct mt : Z) (m : VariableMetadata) : VariableMetadata :=
  {| Namespace := Namespace m; Path := Path m;
     CreateIndex := CreateIndex m; ModifyIndex := ModifyIndex m;
     CreateTime := ct; ModifyTime := mt;
     Lock := Lock m |}.

(** The zero value of VariableMetadata. *)
Definition zeroMetadata : VariableMetadata :=
  {| Namespace := ""; Path := "";
     CreateIndex := 0; ModifyIndex := 0;
     CreateTime := 0; ModifyTime := 0;
     Lock := None |}.

(** The operations of a VarOp.  VarOp is a string type in Go, so a request
    can carry a value that is none of the six known operations. *)
Inductive VarOp : Type :=
| VarOpSet
| VarOpCAS
| VarOpDelete
| VarOpDeleteCAS
| VarOpLockAcquire
| VarOpLockRelease
| VarOpUnknown (name : string).

Inductive VarOpResult : Type :=
| VarOpResultOk
| VarOpResultConflict
| VarOpResultRedacted
| VarOpResultError.

Record WriteRequest : Type := {
  wrRegion : string;
  wrNamespace : string;
  wrAuthToken : string
}.

Record WriteMeta : Type := {
  Index : Z
}.

Record VariablesApplyRequest : Type := {
  Op : VarOp;
  Var : option VariableDecrypted;
  applyWriteRequest : WriteRequest
}.

(** The record handed to the replicated state machine. *)
Record VarApplyStateRequest : Type := {
  sreqOp : VarOp;
  sreqVar : option VariableEncrypted;
  sreqWriteRequest : WriteRequest
}.

(** The state machine's answer. *)
Record VarApplyStateResponse : Type := {
  srespOp : VarOp;
  srespResult : VarOpResult;
  srespError : option error;
  srespConflict : option VariableEncrypted;
  WrittenSVMeta : option VariableMetadata;
  srespWriteMeta : WriteMeta
}.

Record VariablesApplyResponse : Type := {
  respOp : VarOp;
  Input : option VariableDecrypted;
  Result : VarOpResult;
  Error : option error;
  Conflict : option VariableDecrypted;
  Output : option VariableDecrypted;
  respWriteMeta : WriteMeta
}.

Definition withIndex (i : Z) (r : VariablesApplyResponse) : VariablesApplyResponse :=
  {| respOp := respOp r; Input := Input r; Result := Result r;
     Error := Error r; Conflict := Conflict r; Output := Output r;
     respWriteMeta := {| Index := i |} |}.

Definition withConflict (c : option VariableDecrypted) (r : VariablesApplyResponse)
  : VariablesApplyResponse :=
  {| respOp := respOp r; Input := Input r; Result := Result r;
     Error := Error r; Conflict := c; Output := Output r;
     respWriteMeta := respWriteMeta r |}.

Definition withOutput (o : option VariableDecrypted) (r : VariablesApplyResponse)
  : VariablesApplyResponse :=
  {| respOp := respOp r; Input := Input r; Result := Result r;
     Error := Error r; Conflict := Conflict r; Output := o;
     respWriteMeta := respWriteMeta r |}.

Definition withResult (res : VarOpResult) (r : VariablesApplyResponse)
  : VariablesApplyResponse :=
  {| respOp := respOp r; Input := Input r; Result := res;
     Error := Error r; Conflict := Conflict r; Output := Output r;
     respWriteMeta := respWriteMeta r |}.

(** Modelled from the spec: the methods IsOk and IsError of
    structs.VarApplyStateResponse are not part of the endpoint's file; the
    result is a variant with the branches success, conflict and terminal
    failure, and each method tests its own branch. *)
Definition IsOk (r : VarApplyStateResponse) : bool :=
  match srespResult r with VarOpResultOk => true | _ => false end.

Definition IsError (r : VarApplyStateResponse) : bool :=
  match srespResult r with VarOpResultError => true | _ => false end.

(** ** The authorizer (package acl) *)

(** The capability names the endpoint asks about. *)
Inductive capability : Type :=
| VariablesCapabilityRead
| VariablesCapabilityWrite
| VariablesCapabilityDestroy
| PolicyRead
| PolicyList.

(** A workload-identity claim passed to the authorizer; nil on the write
    path. *)
Record ACLClaim : Type := {
  claimNamespace : string;
  claimJob : string
}.

(** A resolved ACL object answers capability questions.  With ACLs
    disabled every question is allowed and the caller is management. *)
Record ACL : Type := {
  AllowVariableOperation : string -> string -> capability -> option ACLClaim -> bool;
  IsManagement : bool
}.

Definition hasReadPermission (aclObj : ACL) (namespace path : string) : bool :=
  AllowVariableOperation aclObj namespace path VariablesCapabilityRead None.

Definition hasOperationPermissions (aclObj : ACL) (namespace path : string) (op : VarOp)
  : option error :=
  let hasPerm := fun perm : capability =>
    AllowVariableOperation aclObj namespace path perm None in
  match op with
  | VarOpSet | VarOpCAS | VarOpLockAcquire | VarOpLockRelease =>
      if negb (hasPerm VariablesCapabilityWrite)
      then Some ErrPermissionDenied
      else None
  | VarOpDelete | VarOpDeleteCAS =>
      if negb (hasPerm VariablesCapabilityDestroy)
      then Some ErrPermissionDenied
      else None
  | VarOpUnknown name =>
      Some (Errorf "svPreApply: unexpected VarOp received: %q" [name])
  end.

(** The capability an operation needs, as the two arms of the switch of
    hasOperationPermissions group them. *)
Definition requiredCapability (op : VarOp) : option capability :=
  match op with
  | VarOpSet | VarOpCAS | VarOpLockAcquire | VarOpLockRelease =>
      Some VariablesCapabilityWrite
  | VarOpDelete | VarOpDeleteCAS => Some VariablesCapabilityDestroy
  | VarOpUnknown _ => None
  end.

Record VariablesRenewLockRequest : Type := {
  renewPath : string;
  LockID : string;
  renewWriteRequest : WriteRequest
}.

Record VariablesRenewLockResponse : Type := {
  VarMeta : option VariableMetadata;
  renewWriteMeta : WriteMeta
}.

Record QueryOptions : Type := {
  qoRegion : string;
  qoNamespace : string;
  qoAuthToken : string;
  MinQueryIndex : Z
}.

Record VariablesReadRequest : Type := {
  readPath : string;
  readQueryOptions : QueryOptions
}.

Record QueryMeta : Type := {
  qmIndex : Z
}.

Record VariablesReadResponse : Type := {
  readData : option VariableDecrypted;
  readQueryMeta : QueryMeta
}.

(** ** Collaborators outside the endpoint's file *)

(** The methods of package structs the endpoint calls: the namespace of
    a write request and of a query, canonicalization and validation of a
    variable and of a renewal request, the deep copies, and the text of an
    error. *)
Class Structs : Type := {
  RequestNamespace : WriteRequest -> string;
  QueryNamespace : QueryOptions -> string;
  RenewValidate : VariablesRenewLockRequest -> option error;
  Canonicalize : VariableDecrypted -> VariableDecrypted;
  Validate : VariableDecrypted -> option error;
  ValidateForLock : VariableDecrypted -> option error;
  ValidatePath : string -> option error;
  ItemsCopy : VariableItems -> VariableItems;
  EncryptedCopy : VariableEncrypted -> VariableEncrypted;
  DecryptedCopy : VariableDecrypted -> VariableDecrypted;
  ErrorText : error -> string
}.

(** The interface variableTimers of the source: the lock TTL timer
    registry, over its own state [T]. *)
Class variableTimers (T : Type) : Type := {
  CreateVariableLockTTLTimer : VariableEncrypted -> T -> T;
  RemoveVariableLockTTLTimer : VariableEncrypted -> T -> T;
  RenewTTLTimer : VariableEncrypted -> T -> T * option error
}.

(** The outcome of running Go code: it returns, or it panics on a nil
    pointer dereference. *)
Inductive go (A : Type) : Type :=
| Return (a : A)
| Panic.
Arguments Return {A} a.
Arguments Panic {A}.

(** ** Canonicalization and validation *)

Section Validation.
Context {structs : Structs}.

Definition withVar (v : VariableDecrypted) (args : VariablesApplyRequest)
  : VariablesApplyRequest :=
  {| Op := Op args; Var := Some v; applyWriteRequest := applyWriteRequest args |}.

Definition withVarLock (l : option VariableLock) (v : VariableDecrypted)
  : VariableDecrypted :=
  {| vdMeta := withLock l (vdMeta v); Items := Items v |}.

(** The zero value of VariableLock. *)
Definition zeroLock : VariableLock := {| ID := ""; TTL := 0; LockDelay := 0 |}.

(** canonicalizeAndValidate mutates args.Var in place and returns an
    error; here it returns the request as it leaves it, and the error. *)
Definition canonicalizeAndValidate (args : VariablesApplyRequest)
  : go (VariablesApplyRequest * option error) :=
  match Op args with
  | VarOpLockAcquire =>
      match Var args with
      | None => Panic
      | Some v =>
          let v :=
            match Lock (vdMeta v) with
            | None => withVarLock (Some zeroLock) v
            | Some _ => v
            end in
          let v := Canonicalize v in
          match ValidateForLock v with
          | Some err =>
              Return (withVar v args,
                      Some (NewErrRPCCoded StatusBadRequest (ErrorText err)))
          | None => Return (withVar v args, None)
          end
      end
  | VarOpSet | VarOpCAS =>
      match Var args with
      | None => Panic
      | Some v =>
          if match Lock (vdMeta v) with
             | Some l => negb (Z.eqb (LockDelay l) 0) || negb (Z.eqb (TTL l) 0)
             | None => false
             end
          then Return (args,
                       Some (NewErrRPCCoded StatusBadRequest
                               (ErrorText errLockOnVarCreation)))
          else
            let v := Canonicalize v in
            match Validate v with
            | Some err =>
                Return (withVar v args,
                        Some (NewErrRPCCoded StatusBadRequest (ErrorText err)))
            | None => Return (withVar v args, None)
            end
      end
  | VarOpDelete | VarOpDeleteCAS =>
      match Var args with
      | None => Return (args, Some errNoPath)
      | Some v =>
          if String.eqb (Path (vdMeta v)) ""
          then Return (args, Some errNoPath)
          else Return (args, None)
      end
  | VarOpLockRelease =>
      match Var args with
      | None => Return (args, Some errMissingLockInfo)
      | Some v =>
          match Lock (vdMeta v) with
          | None => Return (args, Some errMissingLockInfo)
          | Some l =>
              if String.eqb (ID l) ""
              then Return (args, Some errMissingLockInfo)
              else
                if notNil (Items v) || negb (Nat.eqb (len (Items v)) 0)
                then Return (args, Some errItemsOnRelease)
                else Return (args, ValidatePath (Path (vdMeta v)))
          end
      end
  | VarOpUnknown _ => Return (args, None)
  end.

End Validation.

(** ** The server behind the endpoint *)

(** The replicated log: the records submitted to raftApply, oldest first.
    The state store every read goes to is a projection of it. *)
Definition RaftLog : Type := list VarApplyStateRequest.

(** What the endpoint asks of its server, its encrypter and the JSON
    codec.  A Go result pair (value, err) is a sum, [inl] carrying the
    error.  Authentication and ACL resolution read the identity of the
    request, here its auth token.  [forwardApply], [forwardRead] and
    [forwardRenew] are
    srv.forward for the three methods: [Some] when the request was handed
    to another server, with the reply and error that server produced. *)
Record Server : Type := {
  Authenticate : string -> option error;
  forwardApply : VariablesApplyRequest -> VariablesApplyResponse ->
                 option (VariablesApplyResponse * option error);
  forwardRead : VariablesReadRequest -> VariablesReadResponse ->
                option (VariablesReadResponse * option error);
  forwardRenew : VariablesRenewLockRequest -> VariablesRenewLockResponse ->
                 option (VariablesRenewLockResponse * option error);
  ServersMeetMinimumVersion : bool;
  minVersionKeyring : string;
  ResolveACL : string -> error + ACL;
  IdentityToACLClaim : string -> option ACLClaim;
  raftApply : RaftLog -> VarApplyStateRequest -> error + (VarApplyStateResponse * Z);
  Snapshot : RaftLog -> option error;
  GetVariable : RaftLog -> string -> string -> error + option VariableEncrypted;
  tableVariablesIndex : RaftLog -> Z;
  UnixNano : Z;
  Marshal : VariableItems -> error + bytes;
  Unmarshal : bytes -> error + VariableItems;
  Encrypt : bytes -> error + (bytes * string);
  Decrypt : bytes -> string -> error + bytes
}.

(** A call made to the encrypter. *)
Inductive CryptoCall : Type :=
| CallEncrypt (plaintext : bytes)
| CallDecrypt (ciphertext : bytes) (keyID : string).

(** What a request can change: the replicated log, the timer registry,
    and the record of the calls made to the encrypter. *)
Record World (T : Type) : Type := {
  raftLog : RaftLog;
  timers : T;
  cryptoLog : list CryptoCall
}.
Arguments raftLog {T} w.
Arguments timers {T} w.
Arguments cryptoLog {T} w.

Section Endpoint.
Context {structs : Structs} {T : Type} {timerRegistry : variableTimers T}.
Variable srv : Server.

(** *** The endpoint monad: state passing over [World], with panics *)

Definition M (A : Type) : Type := World T -> World T * go A.

Definition ret {A : Type} (a : A) : M A := fun w => (w, Return a).

Definition bind {A B : Type} (m : M A) (k : A -> M B) : M B :=
  fun w =>
    match m w with
    | (w', Return a) => k a w'
    | (w', Panic) => (w', Panic)
    end.

Definition panic {A : Type} : M A := fun w => (w, Panic).

Definition lift {A : Type} (r : go A) : M A := fun w => (w, r).

Notation "'let*' x ':=' m 'in' k" := (bind m (fun x => k))
  (at level 10, x name, m at level 100, k at level 200).

Definition callRaftApply (req : VarApplyStateRequest)
  : M (error + (VarApplyStateResponse * Z)) :=
  fun w =>
    ({| raftLog := (raftLog w ++ [req])%list; timers := timers w; cryptoLog := cryptoLog w |},
     Return (raftApply srv (raftLog w) req)).

Definition callEncrypt (b : bytes) : M (error + (bytes * string)) :=
  fun w =>
    ({| raftLog := raftLog w; timers := timers w;
        cryptoLog := (cryptoLog w ++ [CallEncrypt b])%list |},
     Return (Encrypt srv b)).

Definition callDecrypt (data : bytes) (keyID : string) : M (error + bytes) :=
  fun w =>
    ({| raftLog := raftLog w; timers := timers w;
        cryptoLog := (cryptoLog w ++ [CallDecrypt data keyID])%list |},
     Return (Decrypt srv data keyID)).

Definition callCreateTimer (ev : VariableEncrypted) : M unit :=
  fun w =>
    ({| raftLog := raftLog w; timers := CreateVariableLockTTLTimer ev (timers w);
        cryptoLog := cryptoLog w |},
     Return tt).

Definition callRemoveTimer (ev : VariableEncrypted) : M unit :=
  fun w =>
    ({| raftLog := raftLog w; timers := RemoveVariableLockTTLTimer ev (timers w);
        cryptoLog := cryptoLog w |},
     Return tt).

Definition callRenewTimer (ev : VariableEncrypted) : M (option error) :=
  fun w =>
    let '(t, err) := RenewTTLTimer ev (timers w) in
    ({| raftLog := raftLog w; timers := t; cryptoLog := cryptoLog w |},
     Return err).

Definition getState : M RaftLog := fun w => (w, Return (raftLog w)).

(** *** Encryption glue *)

Definition encrypt (v : VariableDecrypted) : M (error + VariableEncrypted) :=
  match Marshal srv (Items v) with
  | inl err => ret (inl err)
  | inr b =>
      let* r := callEncrypt b in
      match r with
      | inl err => ret (inl err)
      | inr (data, keyID) =>
          ret (inr {| veMeta := vdMeta v; Data := data; KeyID := keyID |})
      end
  end.

Definition decrypt (v : VariableEncrypted) : M (error + VariableDecrypted) :=
  let* r := callDecrypt (Data v) (KeyID v) in
  match r with
  | inl err => ret (inl err)
  | inr b =>
      match Unmarshal srv b with
      | inl err => ret (inl err)
      | inr items => ret (inr {| vdMeta := veMeta v; Items := items |})
      end
  end.

(** *** Response assembly *)

(** The caller is the lock holder: it supplied the stored lock ID.  The
    first argument is req.Var, which the caller has dereferenced. *)
Definition isCallerOwner (reqVar : VariableDecrypted) (respVarMeta : VariableMetadata)
  : bool :=
  match Lock (vdMeta reqVar), Lock respVarMeta with
  | Some reqLock, Some savedLock => String.eqb (ID reqLock) (ID savedLock)
  | _, _ => false
  end.

(** The result is the pair (response pointer, error) of the source. *)
Definition makeVariablesApplyResponse
    (req : VariablesApplyRequest) (eResp : VarApplyStateResponse) (aclObj : ACL)
  : M (option VariablesApplyResponse * option error) :=
  let out :=
    {| respOp := srespOp eResp;
       Input := Var req;
       Result := srespResult eResp;
       Error := srespError eResp;
       Conflict := None;
       Output := None;
       respWriteMeta := srespWriteMeta eResp |} in
  match Var req with
  | None => panic
  | Some reqVar =>
      let canRead :=
        hasReadPermission aclObj (Namespace (vdMeta reqVar)) (Path (vdMeta reqVar)) in
      let isManagement := IsManagement aclObj in
      if IsOk eResp then
        match WrittenSVMeta eResp with
        | Some written =>
            let output := {| vdMeta := written; Items := ItemsCopy (Items reqVar) |} in
            let output :=
              if negb (isCallerOwner reqVar written || isManagement)
              then withVarLock None output
              else output in
            ret (Some (withOutput (Some output) out), None)
        | None => ret (Some out, None)
        end
      else if IsError eResp then
        ret (Some out, srespError eResp)
      else
        match srespConflict eResp with
        | None => panic
        | Some conflict =>
            let out :=
              withConflict (Some {| vdMeta := veMeta conflict; Items := None |}) out in
            if negb canRead then
              ret (Some (withResult VarOpResultRedacted out), None)
            else if String.eqb (KeyID conflict) "" then
              let dv :=
                {| vdMeta := withNamespace (Namespace (veMeta conflict))
                               (withPath (Path (veMeta conflict)) zeroMetadata);
                   Items := None |} in
              ret (Some (withConflict (Some dv) out), None)
            else
              let* r := decrypt conflict in
              match r with
              | inl err => ret (None, Some err)
              | inr dv => ret (Some (withConflict (Some dv) out), None)
              end
        end
  end.

(** *** Apply *)

Definition withVarNamespace (ns : string) (v : VariableDecrypted) : VariableDecrypted :=
  {| vdMeta := withNamespace ns (vdMeta v); Items := Items v |}.

Definition withEncryptedTimes (ct mt : Z) (ev : VariableEncrypted) : VariableEncrypted :=
  {| veMeta := withTimes ct mt (veMeta ev); Data := Data ev; KeyID := KeyID ev |}.

(** Apply mutates args.Var and the reply in place and returns an error;
    here it returns the request and the reply as it leaves them, and the
    error.  The metrics calls have no effect on the modelled state. *)
Definition Apply (args : VariablesApplyRequest) (reply : VariablesApplyResponse)
  : M (VariablesApplyRequest * VariablesApplyResponse * option error) :=
  let authErr := Authenticate srv (wrAuthToken (applyWriteRequest args)) in
  match forwardApply srv args reply with
  | Some (reply', err) => ret (args, reply', err)
  | None =>
  match authErr with
  | Some _ => ret (args, reply, Some ErrPermissionDenied)
  | None =>
  match Var args with
  | None => ret (args, reply, Some (Errorf "variable must not be nil" []))
  | Some v =>
  let v :=
    if String.eqb (Namespace (vdMeta v)) ""
    then withVarNamespace (RequestNamespace (applyWriteRequest args)) v
    else v in
  let args := withVar v args in
  if negb (ServersMeetMinimumVersion srv) then
    ret (args, reply,
         Some (Errorf "all servers must be running version %v or later to apply variables"
                 [minVersionKeyring srv]))
  else
  match ResolveACL srv (wrAuthToken (applyWriteRequest args)) with
  | inl err => ret (args, reply, Some err)
  | inr aclObj =>
  match hasOperationPermissions aclObj (Namespace (vdMeta v)) (Path (vdMeta v)) (Op args) with
  | Some err => ret (args, reply, Some err)
  | None =>
  let* validated := lift (canonicalizeAndValidate args) in
  let args := fst validated in
  match snd validated with
  | Some err =>
      ret (args, reply, Some (NewErrRPCCoded StatusBadRequest (ErrorText err)))
  | None =>
  let* encrypted :=
    match Op args with
    | VarOpSet | VarOpCAS | VarOpLockAcquire | VarOpLockRelease =>
        match Var args with
        | None => panic
        | Some v =>
            let* r := encrypt v in
            match r with
            | inl err => ret (inl (ErrorfWrap "variable error: encrypt: %w" err))
            | inr ev =>
                let now := UnixNano srv in
                ret (inr (Some (withEncryptedTimes now now ev)))
            end
        end
    | VarOpDelete | VarOpDeleteCAS =>
        match Var args with
        | None => panic
        | Some v =>
            ret (inr (Some
              {| veMeta :=
                   {| Namespace := Namespace (vdMeta v);
                      Path := Path (vdMeta v);
                      CreateIndex := 0;
                      ModifyIndex := ModifyIndex (vdMeta v);
                      CreateTime := 0; ModifyTime := 0;
                      Lock := None |};
                 Data := [];
                 KeyID := "" |}))
        end
    | VarOpUnknown _ => ret (inr None)
    end in
  match encrypted with
  | inl err => ret (args, reply, Some err)
  | inr ev =>
  let sveArgs :=
    {| sreqOp := Op args; sreqVar := ev; sreqWriteRequest := applyWriteRequest args |} in
  let* applied := callRaftApply sveArgs in
  match applied with
  | inl err => ret (args, reply, Some (ErrorfWrap "raft apply failed: %w" err))
  | inr (out, index) =>
  let* made := makeVariablesApplyResponse args out aclObj in
  match snd made with
  | Some err => ret (args, reply, Some err)
  | None =>
  match fst made with
  | None => panic
  | Some r =>
  let reply := withIndex index r in
  let* _ :=
    if IsOk out then
      match Op args with
      | VarOpLockAcquire =>
          match ev with
          | Some ev => callCreateTimer (EncryptedCopy ev)
          | None => panic
          end
      | VarOpLockRelease =>
          match ev with
          | Some ev => callRemoveTimer (EncryptedCopy ev)
          | None => panic
          end
      | _ => ret tt
      end
    else ret tt in
  ret (args, reply, None)
  end end end end end end end end end end.

(** *** Read *)

(** Modelled from the spec: srv.setReplyQueryMeta is not part of the
    endpoint's file; it reports the maximum index of the named table, here
    the variables table, in the reply's query meta. *)
Definition setReplyQueryMeta (s : RaftLog) (qm : QueryMeta) : QueryMeta :=
  {| qmIndex := tableVariablesIndex srv s |}.

(** The query function Read hands to blockingRPC, run against the state
    store [s]. *)
Definition Read_run (args : VariablesReadRequest) (aclObj : ACL)
    (s : RaftLog) (reply : VariablesReadResponse)
  : M (VariablesReadResponse * option error) :=
  match GetVariable srv s (QueryNamespace (readQueryOptions args)) (readPath args) with
  | inl err => ret (reply, Some err)
  | inr out =>
      let reply := {| readData := None; readQueryMeta := readQueryMeta reply |} in
      match out with
      | Some out =>
          let* r := decrypt out in
          match r with
          | inl err => ret (reply, Some err)
          | inr dv =>
              let ov := DecryptedCopy dv in
              let ov := if negb (IsManagement aclObj) then withVarLock None ov else ov in
              ret ({| readData := Some ov;
                      readQueryMeta := {| qmIndex := ModifyIndex (veMeta out) |} |},
                   None)
          end
      | None =>
          ret ({| readData := readData reply;
                  readQueryMeta := setReplyQueryMeta s (readQueryMeta reply) |},
               None)
      end
  end.

(** Modelled from the spec: srv.blockingRPC is not part of the endpoint's
    file; it runs the query function against the state store at the
    latest visible index and returns what that run returns (waiting for
    the index to pass the caller's minimum is not modelled). *)
Definition blockingRPC {A : Type} (run : RaftLog -> M A) : M A :=
  let* s := getState in
  run s.

Definition Read (args : VariablesReadRequest) (reply : VariablesReadResponse)
  : M (VariablesReadResponse * option error) :=
  let authErr := Authenticate srv (qoAuthToken (readQueryOptions args)) in
  match forwardRead srv args reply with
  | Some (reply', err) => ret (reply', err)
  | None =>
  match authErr with
  | Some _ => ret (reply, Some ErrPermissionDenied)
  | None =>
  match ResolveACL srv (qoAuthToken (readQueryOptions args)) with
  | inl err => ret (reply, Some err)
  | inr aclObj =>
  if negb (AllowVariableOperation aclObj
             (QueryNamespace (readQueryOptions args)) (readPath args) PolicyRead
             (IdentityToACLClaim srv (qoAuthToken (readQueryOptions args))))
  then ret (reply, Some ErrPermissionDenied)
  else blockingRPC (fun s => Read_run args aclObj s reply)
  end end end.

(** *** RenewLock *)

Definition RenewLock (args : VariablesRenewLockRequest) (reply : VariablesRenewLockResponse)
  : M (VariablesRenewLockResponse * option error) :=
  let authErr := Authenticate srv (wrAuthToken (renewWriteRequest args)) in
  match forwardRenew srv args reply with
  | Some (reply', err) => ret (reply', err)
  | None =>
  match authErr with
  | Some _ => ret (reply, Some ErrPermissionDenied)
  | None =>
  match ResolveACL srv (wrAuthToken (renewWriteRequest args)) with
  | inl err => ret (reply, Some err)
  | inr aclObj =>
  if negb (AllowVariableOperation aclObj
             (wrNamespace (renewWriteRequest args)) (renewPath args)
             VariablesCapabilityWrite None)
  then ret (reply, Some ErrPermissionDenied)
  else
  match RenewValidate args with
  | Some err => ret (reply, Some err)
  | None =>
  let* stateSnapshot := getState in
  match Snapshot srv stateSnapshot with
  | Some err => ret (reply, Some err)
  | None =>
  match GetVariable srv stateSnapshot
          (wrNamespace (renewWriteRequest args)) (renewPath args) with
  | inl err => ret (reply, Some err)
  | inr None => ret (reply, Some errVarNotFound)
  | inr (Some encryptedVar) =>
  match Lock (veMeta encryptedVar) with
  | None => ret (reply, Some errLockNotFound)
  | Some lock =>
  if negb (String.eqb (ID lock) (LockID args))
  then ret (reply, Some errVarIsLocked)
  else
  let* err := callRenewTimer (EncryptedCopy encryptedVar) in
  match err with
  | Some _ => ret (reply, Some errVarIsLocked)
  | None =>
  let updatedVar := EncryptedCopy encryptedVar in
  ret ({| VarMeta := Some (veMeta updatedVar);
          renewWriteMeta := {| Index := ModifyIndex (veMeta encryptedVar) |} |},
       None)
  end end end end end end end end.

End Endpoint.

(** ** Vocabulary of the statements *)

Section Vocabulary.
Context {structs : Structs} {T : Type} {timerRegistry : variableTimers T}.
Variable srv : Server.

(** The namespace Apply works with: the variable's own, or the request's
    when the variable has none. *)
Definition targetNamespace (args : VariablesApplyRequest) (v : VariableDecrypted) : string :=
  if String.eqb (Namespace (vdMeta v)) ""
  then RequestNamespace (applyWriteRequest args)
  else Namespace (vdMeta v).

(** The world after one call to the encrypter's Decrypt. *)
Definition afterDecrypt (w : World T) (data : bytes) (keyID : string) : World T :=
  {| raftLog := raftLog w; timers := timers w;
     cryptoLog := (cryptoLog w ++ [CallDecrypt data keyID])%list |}.

(** The world after the timer registry answered a renewal. *)
Definition afterRenew (w : World T) (ev : VariableEncrypted) : World T :=
  {| raftLog := raftLog w; timers := fst (RenewTTLTimer ev (timers w));
     cryptoLog := cryptoLog w |}.


(** Two worlds with the same replicated log and the same timers. *)
Definition sameLogTimers (w w' : World T) : Prop :=
  raftLog w' = raftLog w /\ timers w' = timers w.

(** The record Apply builds for the state machine from the validated
    variable [v], by operation: the encrypted variable stamped with the
    current time for the four writing operations, the bare key and index
    for the two deletions. *)
Definition submittedRecord (op : VarOp) (v : VariableDecrypted)
    (ev : option VariableEncrypted) : Prop :=
  match op with
  | VarOpDelete | VarOpDeleteCAS =>
      ev = Some {| veMeta :=
                     {| Namespace := Namespace (vdMeta v);
                        Path := Path (vdMeta v);
                        CreateIndex := 0;
                        ModifyIndex := ModifyIndex (vdMeta v);
                        CreateTime := 0; ModifyTime := 0;
                        Lock := None |};
                   Data := [];
                   KeyID := "" |}
  | VarOpUnknown _ => ev = None
  | _ =>
      exists b data keyID,
        Marshal srv (Items v) = inr b /\ Encrypt srv b = inr (data, keyID) /\
        ev = Some {| veMeta := withTimes (UnixNano srv) (UnixNano srv) (vdMeta v);
                     Data := data; KeyID := keyID |}
  end.

(** What a run of Apply leaves in the timer registry once the state
    machine has answered [applied] to the record carrying [ev]. *)
Definition timersAfterApply (op : VarOp) (ev : option VariableEncrypted)
    (applied : error + (VarApplyStateResponse * Z)) (before after : T) : Prop :=
  match applied with
  | inl _ => after = before
  | inr (out, _) =>
      if IsOk out then
        match op with
        | VarOpLockAcquire =>
            exists e, ev = Some e /\
              after = CreateVariableLockTTLTimer (EncryptedCopy e) before
        | VarOpLockRelease =>
            exists e, ev = Some e /\
              after = RemoveVariableLockTTLTimer (EncryptedCopy e) before
        | _ => after = before
        end
      else after = before
  end.

End Vocabulary.

(** ** A concrete cluster, for running the endpoint on examples *)

Module Demo.

(** A stand-in for package structs: requests without a namespace go to
    the default namespace, canonicalization fills an empty namespace and
    the lock defaults, the path must be non-empty, copies are equal to
    their originals. *)
Definition DefaultNamespace : string := "default".

Definition canonicalizeLock (l : VariableLock) : VariableLock :=
  {| ID := if String.eqb (ID l) "" then "generated-lock-id" else ID l;
     TTL := if Z.eqb (TTL l) 0 then 15 else TTL l;
     LockDelay := if Z.eqb (LockDelay l) 0 then 15 else LockDelay l |}.

Definition canonicalize (v : VariableDecrypted) : VariableDecrypted :=
  {| vdMeta :=
       withLock (option_map canonicalizeLock (Lock (vdMeta v)))
         (if String.eqb (Namespace (vdMeta v)) ""
          then withNamespace DefaultNamespace (vdMeta v)
          else vdMeta v);
     Items := Items v |}.

Definition validatePath (p : string) : option error :=
  if String.eqb p "" then Some (ErrExternal "variable is missing path") else None.

Definition errorText (e : error) : string :=
  match e with
  | ErrPermissionDenied => "Permission denied"
  | ErrRPCCoded _ msg => msg
  | Errorf format _ => format
  | ErrorfWrap format _ => format
  | ErrExternal msg => msg
  end.

#[export] Instance demoStructs : Structs := {|
  RequestNamespace := fun wr =>
    if String.eqb (wrNamespace wr) "" then DefaultNamespace else wrNamespace wr;
  QueryNamespace := fun qo =>
    if String.eqb (qoNamespace qo) "" then DefaultNamespace else qoNamespace qo;
  RenewValidate := fun r =>
    if String.eqb (LockID r) "" then Some (ErrExternal "missing lock ID") else None;
  Canonicalize := canonicalize;
  Validate := fun v => validatePath (Path (vdMeta v));
  ValidateForLock := fun v => validatePath (Path (vdMeta v));
  ValidatePath := validatePath;
  ItemsCopy := fun items => items;
  EncryptedCopy := fun ev => ev;
  DecryptedCopy := fun dv => dv;
  ErrorText := errorText
|}.

(** Modelled from the spec: the Lock Timer Registry is not part of the
    endpoint's file; it maps (namespace, path) to a running timer keyed by
    the current lock ID.  Creating starts or replaces the timer, removing
    discards it, and renewing fails when no timer is registered for that
    (namespace, path, lock ID) triple. *)
Definition Registry : Type := gmap (string * string) string.

Definition timerKey (ev : VariableEncrypted) : string * string :=
  (Namespace (veMeta ev), Path (veMeta ev)).

Definition createTimer (ev : VariableEncrypted) (t : Registry) : Registry :=
  match Lock (veMeta ev) with
  | Some l => <[timerKey ev := ID l]> t
  | None => t
  end.

Definition removeTimer (ev : VariableEncrypted) (t : Registry) : Registry :=
  delete (timerKey ev) t.

Definition renewTimer (ev : VariableEncrypted) (t : Registry) : Registry * option error :=
  match t !! timerKey ev, Lock (veMeta ev) with
  | Some registered, Some l =>
      if String.eqb registered (ID l)
      then (t, None)
      else (t, Some (ErrExternal "lock expired"))
  | _, _ => (t, Some (ErrExternal "lock expired"))
  end.

#[export] Instance registryTimers : variableTimers Registry := {|
  CreateVariableLockTTLTimer := createTimer;
  RemoveVariableLockTTLTimer := removeTimer;
  RenewTTLTimer := renewTimer
|}.

(** Two callers: a management token that may do everything, and a
    writer that may write and destroy but not read. *)
Definition managementACL : ACL :=
  {| AllowVariableOperation := fun _ _ _ _ => true; IsManagement := true |}.

Definition writerACL : ACL :=
  {| AllowVariableOperation := fun _ _ cap _ =>
       match cap with
       | VariablesCapabilityWrite | VariablesCapabilityDestroy => true
       | _ => false
       end;
     IsManagement := false |}.

Definition readerACL : ACL :=
  {| AllowVariableOperation := fun _ _ cap _ =>
       match cap with
       | VariablesCapabilityRead | PolicyRead | PolicyList => true
       | _ => false
       end;
     IsManagement := false |}.

Definition lock1 : VariableLock := {| ID := "lock-1"; TTL := 15; LockDelay := 15 |}.

(** The variable default/a/b, stored locked by lock-1 at index 7. *)
Definition storedVar : VariableEncrypted :=
  {| veMeta := {| Namespace := "default"; Path := "a/b";
                  CreateIndex := 5; ModifyIndex := 7;
                  CreateTime := 1000; ModifyTime := 2000;
                  Lock := Some lock1 |};
     Data := [Byte.x78; Byte.x31];
     KeyID := "key-1" |}.

Definition isDelete (req : VarApplyStateRequest) : bool :=
  match sreqOp req with
  | VarOpDelete | VarOpDeleteCAS => true
  | _ => false
  end.

(** A state machine that accepts every record: it answers success with
    the submitted metadata at the next index.  Its store holds
    [storedVar] until a delete is logged. *)
Definition acceptAll (log : RaftLog) (req : VarApplyStateRequest)
  : error + (VarApplyStateResponse * Z) :=
  let index := 8 + Z.of_nat (length log) in
  inr ({| srespOp := sreqOp req;
          srespResult := VarOpResultOk;
          srespError := None;
          srespConflict := None;
          WrittenSVMeta :=
            if isDelete req then None else option_map veMeta (sreqVar req);
          srespWriteMeta := {| Index := index |} |},
       index).

Definition getVariable (log : RaftLog) (ns path : string)
  : error + option VariableEncrypted :=
  if existsb isDelete log then inr None
  else if String.eqb ns "default" && String.eqb path "a/b"
       then inr (Some storedVar)
       else inr None.

Definition items1 : gmap string string := {["k" := "v"]}.

Definition cluster (aclOf : string -> error + ACL) : Server :=
  {| Authenticate := fun token =>
       if String.eqb token "" then Some (ErrExternal "no token") else None;
     forwardApply := fun _ _ => None;
     forwardRead := fun _ _ => None;
     forwardRenew := fun _ _ => None;
     ServersMeetMinimumVersion := true;
     minVersionKeyring := "1.4.0";
     ResolveACL := aclOf;
     IdentityToACLClaim := fun _ => None;
     raftApply := acceptAll;
     Snapshot := fun _ => None;
     GetVariable := getVariable;
     tableVariablesIndex := fun log => 7 + Z.of_nat (length log);
     UnixNano := 3000;
     Marshal := fun items => inr [];
     Unmarshal := fun b => inr (Some items1);
     Encrypt := fun b => inr (b, "key-1");
     Decrypt := fun data keyID =>
       if String.eqb keyID "key-1" then inr data else inl (ErrExternal "no such key") |}.

Definition aclOfToken (token : string) : error + ACL :=
  if String.eqb token "root" then inr managementACL
  else if String.eqb token "writer" then inr writerACL
  else if String.eqb token "reader" then inr readerACL
  else inl (ErrExternal "ACL token not found").

Definition srv : Server := cluster aclOfToken.

Definition world0 : World Registry :=
  {| raftLog := []; timers := {[("default", "a/b") := "lock-1"]}; cryptoLog := [] |}.

Definition writeAs (token : string) : WriteRequest :=
  {| wrRegion := "global"; wrNamespace := ""; wrAuthToken := token |}.

Definition var (ns path : string) (l : option VariableLock) (items : VariableItems)
  : VariableDecrypted :=
  {| vdMeta := {| Namespace := ns; Path := path; CreateIndex := 0; ModifyIndex := 0;
                  CreateTime := 0; ModifyTime := 0; Lock := l |};
     Items := items |}.

Definition emptyReply : VariablesApplyResponse :=
  {| respOp := VarOpUnknown ""; Input := None; Result := VarOpResultOk; Error := None;
     Conflict := None; Output := None; respWriteMeta := {| Index := 0 |} |}.

Definition validate : VariablesApplyRequest -> go (VariablesApplyRequest * option error) :=
  @canonicalizeAndValidate demoStructs.

Definition apply : VariablesApplyRequest -> VariablesApplyResponse ->
                   World Registry ->
                   World Registry *
                   go (VariablesApplyRequest * VariablesApplyResponse * option error) :=
  @Apply demoStructs Registry registryTimers srv.

Definition makeResponse :=
  @makeVariablesApplyResponse demoStructs Registry srv.

Definition read := @Read demoStructs Registry srv.

Definition renewLock := @RenewLock demoStructs Registry registryTimers srv.

(** A world whose registry has let the timer of default/a/b go. *)
Definition worldExpired : World Registry :=
  {| raftLog := []; timers := ∅; cryptoLog := [] |}.

Definition request (op : VarOp) (token : string) (v : VariableDecrypted)
  : VariablesApplyRequest :=
  {| Op := op; Var := Some v; applyWriteRequest := writeAs token |}.

(** The state machine's conflict answer carrying [c]. *)
Definition conflictWith (c : VariableEncrypted) : VarApplyStateResponse :=
  {| srespOp := VarOpCAS; srespResult := VarOpResultConflict; srespError := None;
     srespConflict := Some c; WrittenSVMeta := None;
     srespWriteMeta := {| Index := 9 |} |}.

(** A conflict value without a key that still carries indices. *)
Definition keylessConflict : VariableEncrypted :=
  {| veMeta := veMeta storedVar; Data := []; KeyID := "" |}.

Definition renewRequest (token lockID : string) : VariablesRenewLockRequest :=
  {| renewPath := "a/b"; LockID := lockID;
     renewWriteRequest :=
       {| wrRegion := "global"; wrNamespace := "default"; wrAuthToken := token |} |}.

Definition emptyRenewReply : VariablesRenewLockResponse :=
  {| VarMeta := None; renewWriteMeta := {| Index := 0 |} |}.

Definition readRequest (token path : string) : VariablesReadRequest :=
  {| readPath := path;
     readQueryOptions :=
       {| qoRegion := "global"; qoNamespace := ""; qoAuthToken := token;
          MinQueryIndex := 0 |} |}.

Definition emptyReadReply : VariablesReadResponse :=
  {| readData := None; readQueryMeta := {| qmIndex := 0 |} |}.

End Demo.

(** ** Listing (List and listAllVariables) *)

Record VariablesListRequest : Type := {
  Prefix : string;
  NextToken : string;
  listQueryOptions : QueryOptions
}.

Record VariablesListResponse : Type := {
  listData : list VariableMetadata;
  listNextToken : string;
  listQueryMeta : QueryMeta
}.

(** What listing asks of its collaborators, all outside the endpoint's
    file: the wildcard namespace of package structs, srv.forward for the
    List method, the two iterators of the state store, the paginator over
    its own type [P] of pagers, and srv.setReplyQueryMeta for the
    variables table with the error it returns. *)
Record Lister (P : Type) : Type := {
  AllNamespacesSentinel : string;
  forwardList : VariablesListRequest -> VariablesListResponse ->
                option (VariablesListResponse * option error);
  GetVariablesByNamespaceAndPrefix :
    RaftLog -> string -> string -> error + list VariableEncrypted;
  Variables : RaftLog -> error + list VariableEncrypted;
  NewPaginator :
    list VariableEncrypted -> QueryOptions -> (VariableEncrypted -> bool) -> string ->
    (VariableEncrypted -> error + VariableMetadata) -> error + P;
  Page : P -> error + (list VariableMetadata * string);
  listReplyQueryMeta : RaftLog -> QueryMeta -> QueryMeta * option error
}.
Arguments AllNamespacesSentinel {P} l.
Arguments forwardList {P} l.
Arguments GetVariablesByNamespaceAndPrefix {P} l.
Arguments Variables {P} l.
Arguments NewPaginator {P} l.
Arguments Page {P} l.
Arguments listReplyQueryMeta {P} l.

(** The text a format with one percent-v verb produces for [text]
    (37 and 118 are the codes of the percent sign and of the letter v). *)
Fixpoint Sprintf (format text : string) : string :=
  match format with
  | EmptyString => EmptyString
  | String c rest =>
      match rest with
      | String c' rest' =>
          if Ascii.eqb c (Ascii.ascii_of_nat 37) && Ascii.eqb c' (Ascii.ascii_of_nat 118)
          then text +:+ rest'
          else String c (Sprintf rest text)
      | EmptyString => String c EmptyString
      end
  end.

Section Listing.
Context {structs : Structs} {T P : Type}.
Variable srv : Server.
Variable lister : Lister P.

(** structs.NewErrRPCCodedf with an error as its one argument. *)
Definition NewErrRPCCodedf (code : Z) (format : string) (err : error) : error :=
  ErrRPCCoded code (Sprintf format (ErrorText err)).

(** The selector closure of both listings. *)
Definition listSelector (args : VariablesListRequest) (aclObj : ACL)
    (v : VariableEncrypted) : bool :=
  if negb (String.prefix (Prefix args) (Path (veMeta v))) then false
  else AllowVariableOperation aclObj (Namespace (veMeta v)) (Path (veMeta v)) PolicyList
         (IdentityToACLClaim srv (qoAuthToken (listQueryOptions args))).

(** The closure of both listings that turns a stored variable into the
    stub that is listed. *)
Definition listStub (aclObj : ACL) (v : VariableEncrypted) : error + VariableMetadata :=
  let svStub := veMeta v in
  let svStub := if negb (IsManagement aclObj) then withLock None svStub else svStub in
  inr svStub.

(** The query function List hands to blockingRPC. *)
Definition List_run (args : VariablesListRequest) (aclObj : ACL)
    (stateStore : RaftLog) (reply : VariablesListResponse)
  : M (T := T) (VariablesListResponse * option error) :=
  match GetVariablesByNamespaceAndPrefix lister stateStore
          (QueryNamespace (listQueryOptions args)) (Prefix args) with
  | inl err => ret (reply, Some err)
  | inr iter =>
  match NewPaginator lister iter (listQueryOptions args) (listSelector args aclObj)
          (NextToken args) (listStub aclObj) with
  | inl err =>
      ret (reply,
           Some (NewErrRPCCodedf StatusBadRequest
                   "failed to create result paginator: %v" err))
  | inr pager =>
  match Page lister pager with
  | inl err =>
      ret (reply,
           Some (NewErrRPCCodedf StatusBadRequest "failed to read result page: %v" err))
  | inr (svs, nextToken) =>
      let meta := listReplyQueryMeta lister stateStore (listQueryMeta reply) in
      ret ({| listData := svs; listNextToken := nextToken; listQueryMeta := fst meta |},
           snd meta)
  end end end.

(** The query function listAllVariables hands to blockingRPC. *)
Definition listAllVariables_run (args : VariablesListRequest) (aclObj : ACL)
    (stateStore : RaftLog) (reply : VariablesListResponse)
  : M (T := T) (VariablesListResponse * option error) :=
  match Variables lister stateStore with
  | inl err => ret (reply, Some err)
  | inr iter =>
  match NewPaginator lister iter (listQueryOptions args) (listSelector args aclObj)
          (NextToken args) (listStub aclObj) with
  | inl err =>
      ret (reply,
           Some (NewErrRPCCodedf StatusBadRequest
                   "failed to create result paginator: %v" err))
  | inr pager =>
  match Page lister pager with
  | inl err =>
      ret (reply,
           Some (NewErrRPCCodedf StatusBadRequest "failed to read result page: %v" err))
  | inr (svs, nextToken) =>
      let meta := listReplyQueryMeta lister stateStore (listQueryMeta reply) in
      ret ({| listData := svs; listNextToken := nextToken; listQueryMeta := fst meta |},
           snd meta)
  end end end.

Definition listAllVariables (args : VariablesListRequest) (reply : VariablesListResponse)
  : M (T := T) (VariablesListResponse * option error) :=
  match ResolveACL srv (qoAuthToken (listQueryOptions args)) with
  | inl err => ret (reply, Some err)
  | inr aclObj =>
      blockingRPC (fun stateStore => listAllVariables_run args aclObj stateStore reply)
  end.

Definition List (args : VariablesListRequest) (reply : VariablesListResponse)
  : M (T := T) (VariablesListResponse * option error) :=
  let authErr := Authenticate srv (qoAuthToken (listQueryOptions args)) in
  match forwardList lister args reply with
  | Some (reply', err) => ret (reply', err)
  | None =>
  match authErr with
  | Some _ => ret (reply, Some ErrPermissionDenied)
  | None =>
  if String.eqb (QueryNamespace (listQueryOptions args)) (AllNamespacesSentinel lister)
  then listAllVariables args reply
  else
  match ResolveACL srv (qoAuthToken (listQueryOptions args)) with
  | inl err => ret (reply, Some err)
  | inr aclObj =>
      blockingRPC (fun stateStore => List_run args aclObj stateStore reply)
  end end end.

(** A paginator is sound when every stub of a page it returns is the
    stub of an element of the iterator that the selector accepted. *)
Definition soundPaginator : Prop :=
  forall iter opts selector token stub pager svs nextToken,
    NewPaginator lister iter opts selector token stub = inr pager ->
    Page lister pager = inr (svs, nextToken) ->
    Forall (fun m => exists v, In v iter /\ selector v = true /\ stub v = inr m) svs.

End Listing.

(** ** More of the concrete cluster *)

Module DemoMore.

(** A second stored variable, in another namespace and not locked. *)
Definition prodVar : VariableEncrypted :=
  {| veMeta := {| Namespace := "prod"; Path := "a/c";
                  CreateIndex := 3; ModifyIndex := 4;
                  CreateTime := 500; ModifyTime := 600;
                  Lock := None |};
     Data := [Byte.x79];
     KeyID := "key-1" |}.

Definition allVariables : list VariableEncrypted := [Demo.storedVar; prodVar].

(** A paginator that returns everything in one page. *)
Fixpoint collect (iter : list VariableEncrypted) (selector : VariableEncrypted -> bool)
    (stub : VariableEncrypted -> error + VariableMetadata)
  : error + list VariableMetadata :=
  match iter with
  | [] => inr []
  | v :: rest =>
      if selector v then
        match stub v, collect rest selector stub with
        | inr m, inr ms => inr (m :: ms)
        | inl e, _ => inl e
        | _, inl e => inl e
        end
      else collect rest selector stub
  end.

Definition lister : Lister (list VariableMetadata) :=
  {| AllNamespacesSentinel := "*";
     forwardList := fun _ _ => None;
     GetVariablesByNamespaceAndPrefix := fun _ ns prefix =>
       inr (filter (fun v => String.eqb (Namespace (veMeta v)) ns
                             && String.prefix prefix (Path (veMeta v)))
              allVariables);
     Variables := fun _ => inr allVariables;
     NewPaginator := fun iter _ selector _ stub => collect iter selector stub;
     Page := fun pager => inr (pager, "");
     listReplyQueryMeta := fun log _ => ({| qmIndex := 7 + Z.of_nat (length log) |}, None) |}.

Definition listVariables :=
  @List Demo.demoStructs Demo.Registry (list VariableMetadata) Demo.srv lister.

(** The same collaborators with a paginator that refuses the token. *)
Definition refusingLister : Lister (list VariableMetadata) :=
  {| AllNamespacesSentinel := "*";
     forwardList := fun _ _ => None;
     GetVariablesByNamespaceAndPrefix := GetVariablesByNamespaceAndPrefix lister;
     Variables := Variables lister;
     NewPaginator := fun _ _ _ _ _ => inl (ErrExternal "bad token");
     Page := Page lister;
     listReplyQueryMeta := listReplyQueryMeta lister |}.

Definition refusingList :=
  @List Demo.demoStructs Demo.Registry (list VariableMetadata) Demo.srv refusingLister.

Definition listRequest (token ns prefix : string) : VariablesListRequest :=
  {| Prefix := prefix; NextToken := "";
     listQueryOptions :=
       {| qoRegion := "global"; qoNamespace := ns; qoAuthToken := token;
          MinQueryIndex := 0 |} |}.

Definition emptyListReply : VariablesListResponse :=
  {| listData := []; listNextToken := ""; listQueryMeta := {| qmIndex := 0 |} |}.

(** A state machine that answers with a response that is neither a
    success nor an error and carries no conflict value. *)
Definition brokenMachine (log : RaftLog) (req : VarApplyStateRequest)
  : error + (VarApplyStateResponse * Z) :=
  inr ({| srespOp := sreqOp req; srespResult := VarOpResultConflict;
          srespError := None; srespConflict := None; WrittenSVMeta := None;
          srespWriteMeta := {| Index := 8 |} |}, 8).

Definition brokenSrv : Server :=
  {| Authenticate := Authenticate Demo.srv;
     forwardApply := forwardApply Demo.srv;
     forwardRead := forwardRead Demo.srv;
     forwardRenew := forwardRenew Demo.srv;
     ServersMeetMinimumVersion := true;
     minVersionKeyring := "1.4.0";
     ResolveACL := ResolveACL Demo.srv;
     IdentityToACLClaim := IdentityToACLClaim Demo.srv;
     raftApply := brokenMachine;
     Snapshot := Snapshot Demo.srv;
     GetVariable := GetVariable Demo.srv;
     tableVariablesIndex := tableVariablesIndex Demo.srv;
     UnixNano := 3000;
     Marshal := Marshal Demo.srv;
     Unmarshal := Unmarshal Demo.srv;
     Encrypt := Encrypt Demo.srv;
     Decrypt := fun _ _ => inl (ErrExternal "no such key") |}.

Definition brokenApply :=
  @Apply Demo.demoStructs Demo.Registry Demo.registryTimers brokenSrv.

Definition brokenRead := @Read Demo.demoStructs Demo.Registry brokenSrv.

End DemoMore.

(** ** Rules of the replicated state machine *)

Section StateMachineRules.
Variable srv : Server.





End StateMachineRules.

(** The metadata of a zero value: nothing but a namespace and a path. *)
Definition zeroValueMetadata (c : VariableEncrypted) : VariableMetadata :=
  {| Namespace := Namespace (veMeta c); Path := Path (veMeta c);
     CreateIndex := 0; ModifyIndex := 0; CreateTime := 0; ModifyTime := 0;
     Lock := None |}.



(** ** A cluster whose state machine keeps the rules *)

Module DemoSM.

(** Modelled from the spec: the replicated state machine is not under
    src/.  This one holds the variables by (namespace, path) and the next
    index.  It accepts Set and Delete from anyone on an unlocked variable
    and from the holder, identified by the lock ID of the record, on a
    locked one; CAS and DeleteCAS also need the record's ModifyIndex to be
    the stored one (zero for an absent variable); LockAcquire needs the
    variable not to hold a lock, LockRelease needs the holder's lock ID.
    What it refuses it answers with a conflict, carrying the stored
    variable, or the zero value when nothing is stored there. *)
Record State : Type := { vars : gmap (string * string) VariableEncrypted; next : Z }.

Definition keyOf (ev : VariableEncrypted) : string * string :=
  (Namespace (veMeta ev), Path (veMeta ev)).

Definition byHolder (cur : option VariableEncrypted) (ev : VariableEncrypted) : bool :=
  match cur with
  | Some s =>
      match Lock (veMeta s) with
      | Some l =>
          match Lock (veMeta ev) with
          | Some rl => String.eqb (ID rl) (ID l)
          | None => false
          end
      | None => true
      end
  | None => true
  end.

Definition fenced (cur : option VariableEncrypted) (ev : VariableEncrypted) : bool :=
  match cur with
  | Some s => Z.eqb (ModifyIndex (veMeta ev)) (ModifyIndex (veMeta s))
  | None => Z.eqb (ModifyIndex (veMeta ev)) 0
  end.

Definition held (cur : option VariableEncrypted) : bool :=
  match cur with
  | Some s => match Lock (veMeta s) with Some _ => true | None => false end
  | None => false
  end.

Definition accepted (op : VarOp) (cur : option VariableEncrypted) (ev : VariableEncrypted)
  : bool :=
  match op with
  | VarOpSet | VarOpDelete => byHolder cur ev
  | VarOpCAS | VarOpDeleteCAS => byHolder cur ev && fenced cur ev
  | VarOpLockAcquire => negb (held cur)
  | VarOpLockRelease => held cur && byHolder cur ev
  | VarOpUnknown _ => false
  end.

(** The record as it is stored at index [idx]. *)
Definition stamped (idx : Z) (cur : option VariableEncrypted) (ev : VariableEncrypted)
  : VariableEncrypted :=
  {| veMeta :=
       {| Namespace := Namespace (veMeta ev);
          Path := Path (veMeta ev);
          CreateIndex := match cur with Some s => CreateIndex (veMeta s) | None => idx end;
          ModifyIndex := idx;
          CreateTime :=
            match cur with Some s => CreateTime (veMeta s) | None => CreateTime (veMeta ev) end;
          ModifyTime := ModifyTime (veMeta ev);
          Lock := Lock (veMeta ev) |};
     Data := Data ev;
     KeyID := KeyID ev |}.

(** The stored variable once its lock is released at index [idx]. *)
Definition released (idx : Z) (s : VariableEncrypted) : VariableEncrypted :=
  {| veMeta :=
       {| Namespace := Namespace (veMeta s);
          Path := Path (veMeta s);
          CreateIndex := CreateIndex (veMeta s);
          ModifyIndex := idx;
          CreateTime := CreateTime (veMeta s);
          ModifyTime := ModifyTime (veMeta s);
          Lock := None |};
     Data := Data s;
     KeyID := KeyID s |}.

Definition zeroValue (ev : VariableEncrypted) : VariableEncrypted :=
  {| veMeta := zeroValueMetadata ev; Data := []; KeyID := "" |}.

Definition step (st : State) (req : VarApplyStateRequest) : State :=
  match sreqVar req with
  | None => {| vars := vars st; next := next st + 1 |}
  | Some ev =>
      let cur := vars st !! keyOf ev in
      {| vars :=
           if accepted (sreqOp req) cur ev then
             match sreqOp req with
             | VarOpDelete | VarOpDeleteCAS => delete (keyOf ev) (vars st)
             | VarOpLockRelease =>
                 match cur with
                 | Some s => <[keyOf ev := released (next st) s]> (vars st)
                 | None => vars st
                 end
             | _ => <[keyOf ev := stamped (next st) cur ev]> (vars st)
             end
           else vars st;
         next := next st + 1 |}
  end.

Definition answer (st : State) (req : VarApplyStateRequest) : VarApplyStateResponse :=
  match sreqVar req with
  | None =>
      {| srespOp := sreqOp req; srespResult := VarOpResultError;
         srespError := Some (ErrExternal "no variable"); srespConflict := None;
         WrittenSVMeta := None; srespWriteMeta := {| Index := next st |} |}
  | Some ev =>
      let cur := vars st !! keyOf ev in
      if accepted (sreqOp req) cur ev then
        {| srespOp := sreqOp req; srespResult := VarOpResultOk;
           srespError := None; srespConflict := None;
           WrittenSVMeta :=
             match sreqOp req with
             | VarOpDelete | VarOpDeleteCAS => None
             | VarOpLockRelease => option_map (fun s => veMeta (released (next st) s)) cur
             | _ => Some (veMeta (stamped (next st) cur ev))
             end;
           srespWriteMeta := {| Index := next st |} |}
      else
        {| srespOp := sreqOp req; srespResult := VarOpResultConflict;
           srespError := None;
           srespConflict :=
             Some (match cur with Some s => s | None => zeroValue ev end);
           WrittenSVMeta := None; srespWriteMeta := {| Index := next st |} |}
  end.

(** The store starts with default/a/b, locked by lock-1 at index 7, and
    the unlocked prod/a/c. *)
Definition state0 : State :=
  {| vars := {[("default", "a/b") := Demo.storedVar; ("prod", "a/c") := DemoMore.prodVar]};
     next := 8 |}.

Definition stateAt (log : RaftLog) : State := fold_left step log state0.

Definition srv : Server :=
  {| Authenticate := Authenticate Demo.srv;
     forwardApply := forwardApply Demo.srv;
     forwardRead := forwardRead Demo.srv;
     forwardRenew := forwardRenew Demo.srv;
     ServersMeetMinimumVersion := true;
     minVersionKeyring := "1.4.0";
     ResolveACL := ResolveACL Demo.srv;
     IdentityToACLClaim := IdentityToACLClaim Demo.srv;
     raftApply := fun log req => inr (answer (stateAt log) req, next (stateAt log));
     Snapshot := Snapshot Demo.srv;
     GetVariable := fun log ns path => inr (vars (stateAt log) !! (ns, path));
     tableVariablesIndex := fun log => next (stateAt log) - 1;
     UnixNano := 3000;
     Marshal := Marshal Demo.srv;
     Unmarshal := Unmarshal Demo.srv;
     Encrypt := Encrypt Demo.srv;
     Decrypt := Decrypt Demo.srv |}.

Definition apply := @Apply Demo.demoStructs Demo.Registry Demo.registryTimers srv.

End DemoSM.

(** ** Properties of validation *)

Section ValidationFacts.
Context {structs : Structs}.

Lemma eqb_empty_false (s : string) : s <> "" -> String.eqb s "" = false.
Proof. intros Hs. now apply String.eqb_neq. Qed.

(** A release without lock information is refused as an invalid
    argument, before anything else is looked at. *)
Lemma LockRelease_missing_lock (args : VariablesApplyRequest) :
  Op args = VarOpLockRelease ->
  (Var args = None \/
   exists v, Var args = Some v /\
     (Lock (vdMeta v) = None \/ exists l, Lock (vdMeta v) = Some l /\ ID l = "")) ->
  canonicalizeAndValidate args = Return (args, Some errMissingLockInfo)
  /\ isInvalidArgument errMissingLockInfo = true.
Proof.
  intros Hop H. split; [|reflexivity].
  unfold canonicalizeAndValidate. rewrite Hop.
  destruct H as [->|(v & -> & [->|(l & -> & ->)])]; reflexivity.
Qed.

(** A release that names its lock and carries the nil map goes on to the
    path check. *)
Lemma LockRelease_nil_items (args : VariablesApplyRequest) (v : VariableDecrypted)
    (l : VariableLock) :
  Op args = VarOpLockRelease -> Var args = Some v ->
  Lock (vdMeta v) = Some l -> ID l <> "" -> Items v = None ->
  canonicalizeAndValidate args = Return (args, ValidatePath (Path (vdMeta v))).
Proof.
  intros Hop Hv Hl Hid Hitems.
  unfold canonicalizeAndValidate.
  rewrite Hop, Hv, Hl, (eqb_empty_false _ Hid), Hitems. reflexivity.
Qed.

(** C5: the release check [Items != nil || len(Items) != 0] refuses every
    map that is not nil, the empty map included: a release that names its
    lock and carries a made map, whatever its size, is answered with the
    items-on-release error. *)
Theorem LockRelease_made_items_rejected (args : VariablesApplyRequest)
    (v : VariableDecrypted) (l : VariableLock) (m : gmap string string) :
  Op args = VarOpLockRelease -> Var args = Some v ->
  Lock (vdMeta v) = Some l -> ID l <> "" -> Items v = Some m ->
  canonicalizeAndValidate args = Return (args, Some errItemsOnRelease).
Proof.
  intros Hop Hv Hl Hid Hitems.
  unfold canonicalizeAndValidate.
  rewrite Hop, Hv, Hl, (eqb_empty_false _ Hid), Hitems. reflexivity.
Qed.

(** C6: on Set and CAS a lock block with a nonzero TTL or LockDelay is
    refused with an invalid-argument error, whether or not the variable
    exists already (so in particular on a fresh creation); without a lock
    block, or with an all-zero one, the outcome is that of canonicalizing
    and validating the variable. *)
Theorem SetCAS_lock_fields (args : VariablesApplyRequest) (v : VariableDecrypted) :
  Op args = VarOpSet \/ Op args = VarOpCAS ->
  Var args = Some v ->
  (forall l, Lock (vdMeta v) = Some l -> TTL l <> 0 \/ LockDelay l <> 0 ->
     canonicalizeAndValidate args =
       Return (args, Some (NewErrRPCCoded StatusBadRequest (ErrorText errLockOnVarCreation)))
     /\ isInvalidArgument
          (NewErrRPCCoded StatusBadRequest (ErrorText errLockOnVarCreation)) = true)
  /\ (Lock (vdMeta v) = None \/
      (exists l, Lock (vdMeta v) = Some l /\ TTL l = 0 /\ LockDelay l = 0) ->
      canonicalizeAndValidate args =
        Return (withVar (Canonicalize v) args,
                match Validate (Canonicalize v) with
                | Some err => Some (NewErrRPCCoded StatusBadRequest (ErrorText err))
                | None => None
                end)).
Proof.
  intros Hop Hv. split.
  - intros l Hl Hnz. split; [|reflexivity].
    assert (Hb : negb (Z.eqb (LockDelay l) 0) || negb (Z.eqb (TTL l) 0) = true).
    { destruct Hnz as [H|H]; apply Z.eqb_neq in H; rewrite H; simpl;
        [apply orb_true_r | reflexivity]. }
    unfold canonicalizeAndValidate.
    destruct Hop as [-> | ->]; rewrite Hv, Hl, Hb; reflexivity.
  - intros Hzero.
    assert (Hb : match Lock (vdMeta v) with
                 | Some l => negb (Z.eqb (LockDelay l) 0) || negb (Z.eqb (TTL l) 0)
                 | None => false
                 end = false).
    { destruct Hzero as [-> | (l & -> & -> & ->)]; reflexivity. }
    unfold canonicalizeAndValidate.
    destruct Hop as [-> | ->]; rewrite Hv, Hb;
      destruct (Validate (Canonicalize v)); reflexivity.
Qed.

End ValidationFacts.

Lemma LockRelease_made_items_rejected_witness :
  let args := {| Op := VarOpLockRelease;
                 Var := Some (Demo.var "default" "a/b" (Some Demo.lock1) (Some ∅));
                 applyWriteRequest := Demo.writeAs "writer" |} in
  len (Some ∅) = 0%nat /\
  Demo.validate args = Return (args, Some errItemsOnRelease).
Proof.
  intros args. split; [reflexivity|].
  apply (@LockRelease_made_items_rejected Demo.demoStructs args
           (Demo.var "default" "a/b" (Some Demo.lock1) (Some ∅)) Demo.lock1 ∅);
    [reflexivity | reflexivity | reflexivity | discriminate | reflexivity].
Defined.

Lemma SetCAS_lock_fields_witness :
  let locked := {| Op := VarOpSet;
                   Var := Some (Demo.var "default" "a/b" (Some Demo.lock1) None);
                   applyWriteRequest := Demo.writeAs "writer" |} in
  let plain := {| Op := VarOpCAS;
                  Var := Some (Demo.var "default" "a/b" None None);
                  applyWriteRequest := Demo.writeAs "writer" |} in
  Demo.validate locked =
    Return (locked, Some (ErrRPCCoded 400 "variable should not contain lock definition"))
  /\ Demo.validate plain = Return (plain, None).
Proof.
  intros locked plain. split.
  - apply (proj1 (@SetCAS_lock_fields Demo.demoStructs locked
                    (Demo.var "default" "a/b" (Some Demo.lock1) None)
                    (or_introl eq_refl) eq_refl)
             Demo.lock1 eq_refl).
    left. discriminate.
  - exact (proj2 (@SetCAS_lock_fields Demo.demoStructs plain
                    (Demo.var "default" "a/b" None None)
                    (or_intror eq_refl) eq_refl)
             (or_introl eq_refl)).
Defined.

(** ** Properties of the response assembly *)

Section ResponseFacts.
Context {structs : Structs} {T : Type} {timerRegistry : variableTimers T}.
Variable srv : Server.

Lemma decrypt_ok (v : VariableEncrypted) (b : bytes) (items : VariableItems) (w : World T) :
  Decrypt srv (Data v) (KeyID v) = inr b ->
  Unmarshal srv b = inr items ->
  decrypt srv v w =
    (afterDecrypt w (Data v) (KeyID v),
     Return (inr {| vdMeta := veMeta v; Items := items |})).
Proof.
  intros Hd Hu. unfold decrypt, bind, callDecrypt, ret, afterDecrypt.
  rewrite Hd, Hu. reflexivity.
Qed.

Lemma decrypt_logs (v : VariableEncrypted) (w : World T) :
  fst (decrypt srv v w) = afterDecrypt w (Data v) (KeyID v).
Proof.
  unfold decrypt, bind, callDecrypt, ret, afterDecrypt.
  destruct (Decrypt srv (Data v) (KeyID v)) as [e|b]; [reflexivity|].
  destruct (Unmarshal srv b); reflexivity.
Qed.


End ResponseFacts.

(** ** Properties of Read and RenewLock *)

Section ReadRenewFacts.
Context {structs : Structs} {T : Type} {timerRegistry : variableTimers T}.
Variable srv : Server.

(** C7: a Read that passes authentication and the read check returns,
    for a stored variable whose payload decrypts, the copy of the
    decrypted variable: its items and every metadata field but the lock
    as they are, its Lock as it is for a management caller and nil for
    any other, and the variable's ModifyIndex as index; for an absent
    variable it returns nil data and the index of the variables table. *)
Theorem Read_result (args : VariablesReadRequest) (reply : VariablesReadResponse)
    (aclObj : ACL) (w : World T) :
  let token := qoAuthToken (readQueryOptions args) in
  let ns := QueryNamespace (readQueryOptions args) in
  forwardRead srv args reply = None ->
  Authenticate srv token = None ->
  ResolveACL srv token = inr aclObj ->
  AllowVariableOperation aclObj ns (readPath args) PolicyRead
    (IdentityToACLClaim srv token) = true ->
  (forall out b items,
     GetVariable srv (raftLog w) ns (readPath args) = inr (Some out) ->
     Decrypt srv (Data out) (KeyID out) = inr b ->
     Unmarshal srv b = inr items ->
     let dv := DecryptedCopy {| vdMeta := veMeta out; Items := items |} in
     exists data,
       Read srv args reply w =
         (afterDecrypt w (Data out) (KeyID out),
          Return ({| readData := Some data;
                     readQueryMeta := {| qmIndex := ModifyIndex (veMeta out) |} |},
                  None))
       /\ Items data = Items dv
       /\ Namespace (vdMeta data) = Namespace (vdMeta dv)
       /\ Path (vdMeta data) = Path (vdMeta dv)
       /\ CreateIndex (vdMeta data) = CreateIndex (vdMeta dv)
       /\ ModifyIndex (vdMeta data) = ModifyIndex (vdMeta dv)
       /\ CreateTime (vdMeta data) = CreateTime (vdMeta dv)
       /\ ModifyTime (vdMeta data) = ModifyTime (vdMeta dv)
       /\ (IsManagement aclObj = true -> Lock (vdMeta data) = Lock (vdMeta dv))
       /\ (IsManagement aclObj = false -> Lock (vdMeta data) = None))
  /\
  (GetVariable srv (raftLog w) ns (readPath args) = inr None ->
   Read srv args reply w =
     (w, Return ({| readData := None;
                    readQueryMeta := {| qmIndex := tableVariablesIndex srv (raftLog w) |} |},
                 None))).
Proof.
  intros token ns Hfwd Hauth Hacl Hallow. subst token ns. split.
  - intros out b items Hget Hd Hu dv. subst dv.
    unfold Read. rewrite Hfwd, Hauth, Hacl, Hallow. simpl.
    unfold blockingRPC, bind, getState, Read_run. rewrite Hget.
    unfold bind. rewrite (decrypt_ok _ _ _ _ _ Hd Hu). unfold ret.
    destruct (IsManagement aclObj); eexists; (split; [reflexivity|]);
      cbn; repeat split; try reflexivity; intros; discriminate.
  - intros Hget.
    unfold Read. rewrite Hfwd, Hauth, Hacl, Hallow. simpl.
    unfold blockingRPC, bind, getState, Read_run. rewrite Hget. reflexivity.
Qed.

(** C8: for a stored variable that holds a lock, a renewal with another
    lock ID and a renewal with the right lock ID whose timer the registry
    no longer renews are answered with the same error, errVarIsLocked; a
    renewal with the right lock ID that the registry renews succeeds with
    the metadata of (a copy of) the stored variable and its ModifyIndex. *)
Theorem RenewLock_outcomes (args : VariablesRenewLockRequest)
    (reply : VariablesRenewLockResponse) (aclObj : ACL)
    (encryptedVar : VariableEncrypted) (lock : VariableLock) (w : World T) :
  let token := wrAuthToken (renewWriteRequest args) in
  let ns := wrNamespace (renewWriteRequest args) in
  forwardRenew srv args reply = None ->
  Authenticate srv token = None ->
  ResolveACL srv token = inr aclObj ->
  AllowVariableOperation aclObj ns (renewPath args) VariablesCapabilityWrite None = true ->
  RenewValidate args = None ->
  Snapshot srv (raftLog w) = None ->
  GetVariable srv (raftLog w) ns (renewPath args) = inr (Some encryptedVar) ->
  Lock (veMeta encryptedVar) = Some lock ->
  (ID lock <> LockID args ->
   RenewLock srv args reply w = (w, Return (reply, Some errVarIsLocked)))
  /\
  (ID lock = LockID args ->
   forall e, snd (RenewTTLTimer (EncryptedCopy encryptedVar) (timers w)) = Some e ->
   RenewLock srv args reply w =
     (afterRenew w (EncryptedCopy encryptedVar), Return (reply, Some errVarIsLocked)))
  /\
  (ID lock = LockID args ->
   snd (RenewTTLTimer (EncryptedCopy encryptedVar) (timers w)) = None ->
   RenewLock srv args reply w =
     (afterRenew w (EncryptedCopy encryptedVar),
      Return ({| VarMeta := Some (veMeta (EncryptedCopy encryptedVar));
                 renewWriteMeta := {| Index := ModifyIndex (veMeta encryptedVar) |} |},
              None))).
Proof.
  intros token ns Hfwd Hauth Hacl Hallow Hval Hsnap Hget Hlock. subst token ns.
  repeat split.
  - intros Hne. apply String.eqb_neq in Hne.
    unfold RenewLock. rewrite Hfwd, Hauth, Hacl, Hallow, Hval. simpl.
    unfold bind, getState. rewrite Hsnap, Hget, Hlock, Hne. reflexivity.
  - intros Heq e Hrenew. apply String.eqb_eq in Heq.
    unfold RenewLock. rewrite Hfwd, Hauth, Hacl, Hallow, Hval. simpl.
    unfold bind, getState. rewrite Hsnap, Hget, Hlock, Heq. simpl.
    unfold callRenewTimer, afterRenew.
    destruct (RenewTTLTimer (EncryptedCopy encryptedVar) (timers w)) as [t err].
    simpl in Hrenew. subst err. reflexivity.
  - intros Heq Hrenew. apply String.eqb_eq in Heq.
    unfold RenewLock. rewrite Hfwd, Hauth, Hacl, Hallow, Hval. simpl.
    unfold bind, getState. rewrite Hsnap, Hget, Hlock, Heq. simpl.
    unfold callRenewTimer, afterRenew.
    destruct (RenewTTLTimer (EncryptedCopy encryptedVar) (timers w)) as [t err].
    simpl in Hrenew. subst err. reflexivity.
Qed.

End ReadRenewFacts.

(** ** Properties of Apply *)

Section ApplyFacts.
Context {structs : Structs} {T : Type} {timerRegistry : variableTimers T}.
Variable srv : Server.

Lemma bind_unfold {A B : Type} (m : M A) (k : A -> M B) (w : World T) :
  bind m k w =
    match m w with
    | (w', Return a) => k a w'
    | (w', Panic) => (w', Panic)
    end.
Proof. reflexivity. Qed.

Lemma encrypt_frame (v : VariableDecrypted) (w : World T) :
  sameLogTimers w (fst (encrypt srv v w)).
Proof.
  unfold encrypt, bind, callEncrypt, ret, sameLogTimers.
  destruct (Marshal srv (Items v)) as [e|b]; simpl; [easy|].
  destruct (Encrypt srv b) as [e|[d k]]; simpl; easy.
Qed.

Lemma encrypt_result (v : VariableDecrypted) (ev : VariableEncrypted) (w : World T) :
  snd (encrypt srv v w) = Return (inr ev) ->
  exists b data keyID,
    Marshal srv (Items v) = inr b /\ Encrypt srv b = inr (data, keyID) /\
    ev = {| veMeta := vdMeta v; Data := data; KeyID := keyID |}.
Proof.
  unfold encrypt, bind, callEncrypt, ret.
  destruct (Marshal srv (Items v)) as [e|b]; simpl; [discriminate|].
  destruct (Encrypt srv b) as [e|[d k]] eqn:He; simpl; [discriminate|].
  intros [= <-]. exists b, d, k. auto.
Qed.

Lemma make_frame (req : VariablesApplyRequest) (eResp : VarApplyStateResponse)
    (aclObj : ACL) (w : World T) :
  sameLogTimers w (fst (makeVariablesApplyResponse srv req eResp aclObj w)).
Proof.
  unfold makeVariablesApplyResponse, sameLogTimers, panic, ret.
  repeat case_match; simpl; try easy.
  rewrite bind_unfold.
  match goal with |- context [decrypt srv ?c w] =>
    pose proof (decrypt_logs srv c w) as Hl;
    destruct (decrypt srv c w) as [w' [[e|dv]|]]
  end; simpl in *; subst w'; easy.
Qed.

Lemma make_ok (req : VariablesApplyRequest) (reqVar : VariableDecrypted)
    (eResp : VarApplyStateResponse) (aclObj : ACL) (w : World T) :
  Var req = Some reqVar -> IsOk eResp = true ->
  exists r, makeVariablesApplyResponse srv req eResp aclObj w = (w, Return (Some r, None)).
Proof.
  intros Hv Hok. unfold makeVariablesApplyResponse. rewrite Hv, Hok.
  destruct (WrittenSVMeta eResp); eexists; reflexivity.
Qed.

Lemma canonicalizeAndValidate_shape (args args2 : VariablesApplyRequest)
    (err : option error) (v : VariableDecrypted) :
  Var args = Some v ->
  canonicalizeAndValidate args = Return (args2, err) ->
  Op args2 = Op args /\ applyWriteRequest args2 = applyWriteRequest args
  /\ exists v2, Var args2 = Some v2.
Proof.
  intros Hv. unfold canonicalizeAndValidate. rewrite Hv.
  repeat case_match; intros; simplify_eq; simpl; eauto.
Qed.

Lemma defaulted_var (args : VariablesApplyRequest) (v : VariableDecrypted) :
  (if String.eqb (Namespace (vdMeta v)) ""
   then withVarNamespace (RequestNamespace (applyWriteRequest args)) v
   else v)
  = withVarNamespace (targetNamespace args v) v.
Proof.
  unfold targetNamespace. destruct (String.eqb (Namespace (vdMeta v)) ""); [reflexivity|].
  destruct v as [[] ?]. reflexivity.
Qed.

(** Every run of Apply either leaves the replicated log and the timers
    as they were, or passed authentication, the version gate, the ACL
    check on the target namespace and validation, and then added exactly
    one record to the log: the one built from the validated variable.
    The timers then depend on the state machine's answer alone. *)
Lemma Apply_run (args : VariablesApplyRequest) (reply : VariablesApplyResponse)
    (w : World T) :
  let w' := fst (Apply srv args reply w) in
  sameLogTimers w w'
  \/ exists v aclObj args2 v2 req,
       Var args = Some v
       /\ ResolveACL srv (wrAuthToken (applyWriteRequest args)) = inr aclObj
       /\ hasOperationPermissions aclObj (targetNamespace args v) (Path (vdMeta v))
            (Op args) = None
       /\ canonicalizeAndValidate (withVar (withVarNamespace (targetNamespace args v) v) args)
            = Return (args2, None)
       /\ Var args2 = Some v2
       /\ raftLog w' = (raftLog w ++ [req])%list
       /\ sreqOp req = Op args
       /\ submittedRecord srv (Op args) v2 (sreqVar req)
       /\ timersAfterApply (Op args) (sreqVar req) (raftApply srv (raftLog w) req)
            (timers w) (timers w').
Proof.
  intros w'. subst w'. unfold Apply, sameLogTimers.
  destruct (forwardApply srv args reply) as [[r e]|]; [left; easy|].
  destruct (Authenticate srv _); [left; easy|].
  destruct (Var args) as [v|] eqn:Hv; [|left; easy].
  rewrite defaulted_var. set (v1 := withVarNamespace _ v).
  destruct (ServersMeetMinimumVersion srv); cbn [negb]; cbv iota; [|left; easy].
  destruct (ResolveACL srv _) as [e|aclObj] eqn:Hacl; [left; easy|].
  destruct (hasOperationPermissions _ _ _ _) eqn:Hperm; [left; easy|].
  rewrite bind_unfold. unfold lift.
  destruct (canonicalizeAndValidate (withVar v1 args)) as [[args2 verr]|] eqn:Hcv;
    [|left; easy].
  cbn [fst snd]. destruct verr; [left; easy|].
  destruct (canonicalizeAndValidate_shape (withVar v1 args) _ _ v1 eq_refl Hcv)
    as (Hop & Hwr & v2 & Hv2).
  cbn [Op applyWriteRequest withVar] in Hop, Hwr. rewrite Hop, Hv2, Hwr.
  rewrite bind_unfold.
  match goal with |- context [match ?m w with _ => _ end] => set (enc := m) end.
  assert (Henc : sameLogTimers w (fst (enc w)) /\
                 forall evo, snd (enc w) = Return (inr evo) ->
                   submittedRecord srv (Op args) v2 evo).
  { subst enc. unfold submittedRecord.
    destruct (Op args); rewrite ?bind_unfold; unfold ret; simpl.
    all: try solve [split; [split; reflexivity | intros; simplify_eq; eauto]].
    all: pose proof (encrypt_frame v2 w) as Hf;
      pose proof (encrypt_result v2) as Hr; specialize (fun ev => Hr ev w);
      destruct (encrypt srv v2 w) as [w1 [[e|ev]|]]; simpl in *;
      (split; [exact Hf |]); intros evo Hevo; simplify_eq;
      destruct (Hr ev eq_refl) as (b & data & keyID & Hm & He & ->);
      exists b, data, keyID; auto. }
  destruct Henc as [[Hlog Htim] Hev].
  destruct (enc w) as [w1 [[e|evo]|]]; cbn [fst snd] in Hlog, Htim, Hev;
    [left; cbn; auto | | left; cbn; auto].
  specialize (Hev evo eq_refl).
  rewrite bind_unfold. unfold callRaftApply. rewrite Hlog, Htim.
  set (req := {| sreqOp := Op args; sreqVar := evo;
                 sreqWriteRequest := applyWriteRequest args |}).
  set (w2 := {| raftLog := (raftLog w ++ [req])%list; timers := timers w;
                cryptoLog := cryptoLog w1 |}).
  right. exists v, aclObj, args2, v2, req.
  cbn [Path vdMeta withVarNamespace withNamespace Namespace] in Hperm.
  do 5 (split; [first [reflexivity | assumption]|]).
  match goal with
  | |- ?A /\ ?B /\ ?C /\ ?D =>
      enough (A /\ D) as [HA HD]
        by (split; [exact HA | split; [reflexivity | split; [exact Hev | exact HD]]])
  end.
  unfold timersAfterApply.
  destruct (raftApply srv (raftLog w) req) as [e|[out idx]]; [cbn; auto|].
  rewrite bind_unfold.
  pose proof (make_frame args2 out aclObj w2) as [Hl2 Ht2].
  destruct (IsOk out) eqn:Hok.
  - destruct (make_ok args2 v2 out aclObj w2 Hv2 Hok) as [r Hr]. rewrite Hr.
    cbn [fst snd]. rewrite bind_unfold.
    unfold submittedRecord in Hev.
    destruct (Op args); cbn; auto;
      destruct Hev as (b & data & keyID & _ & _ & Hevo); cbn in Hevo; rewrite Hevo;
      cbn; eauto.
  - destruct (makeVariablesApplyResponse srv args2 out aclObj w2)
      as [w3 [[ro eo]|]]; cbn [fst snd] in *; [|cbn; auto].
    destruct eo; [cbn; auto|]. destruct ro; cbn; auto.
Qed.

Lemma canonicalizeAndValidate_namespace (args args2 : VariablesApplyRequest)
    (err : option error) (v v2 : VariableDecrypted) :
  Var args = Some v ->
  canonicalizeAndValidate args = Return (args2, err) ->
  Var args2 = Some v2 ->
  (Op args = VarOpDelete \/ Op args = VarOpDeleteCAS \/ Op args = VarOpLockRelease ->
   v2 = v)
  /\ ((forall x, Namespace (vdMeta x) <> "" ->
         Namespace (vdMeta (Canonicalize x)) = Namespace (vdMeta x)) ->
      Namespace (vdMeta v) <> "" ->
      Namespace (vdMeta v2) = Namespace (vdMeta v)).
Proof.
  intros Hv Hcv Hv2. revert Hcv. unfold canonicalizeAndValidate. rewrite Hv.
  repeat case_match; intros; simplify_eq; cbn in *; simplify_eq;
    (split; [intros [?|[?|?]]; congruence |]);
    intros Hlaw Hns; try reflexivity; rewrite Hlaw; auto.
Qed.

Lemma app_singleton_neq {A : Type} (l : list A) (x : A) : l <> (l ++ [x])%list.
Proof.
  intros H. apply (f_equal length) in H. rewrite length_app in H. simpl in H. lia.
Qed.

(** C1: when the resolved ACL does not grant the capability the
    operation needs (write for Set, CAS, LockAcquire and LockRelease,
    destroy for Delete and DeleteCAS) on the target namespace and path,
    Apply changes nothing: no record reaches the replicated log, no timer
    and no encrypter call is made; and when the request is handled by
    this server and the cluster passes the version gate, the error
    returned is ErrPermissionDenied and the reply is untouched. *)
Theorem Apply_requires_capability (args : VariablesApplyRequest)
    (reply : VariablesApplyResponse) (w : World T) (v : VariableDecrypted)
    (aclObj : ACL) (cap : capability) :
  Var args = Some v ->
  ResolveACL srv (wrAuthToken (applyWriteRequest args)) = inr aclObj ->
  requiredCapability (Op args) = Some cap ->
  AllowVariableOperation aclObj (targetNamespace args v) (Path (vdMeta v)) cap None
    = false ->
  fst (Apply srv args reply w) = w
  /\ (forwardApply srv args reply = None ->
      ServersMeetMinimumVersion srv = true ->
      exists args',
        snd (Apply srv args reply w) = Return (args', reply, Some ErrPermissionDenied)).
Proof.
  intros Hv Hacl Hcap Hdeny.
  assert (Hperm : hasOperationPermissions aclObj (targetNamespace args v)
                    (Path (vdMeta v)) (Op args) = Some ErrPermissionDenied).
  { unfold hasOperationPermissions.
    destruct (Op args); simpl in Hcap; simplify_eq; rewrite Hdeny; reflexivity. }
  unfold Apply. split.
  - destruct (forwardApply srv args reply) as [[r e]|]; [reflexivity|].
    destruct (Authenticate srv _); [reflexivity|].
    rewrite Hv, defaulted_var.
    destruct (ServersMeetMinimumVersion srv); [|reflexivity].
    cbn [negb applyWriteRequest withVar]. rewrite Hacl.
    cbn [Op withVar vdMeta withVarNamespace Namespace withNamespace Path].
    rewrite Hperm. reflexivity.
  - intros -> ->.
    destruct (Authenticate srv _); [eexists; reflexivity|].
    rewrite Hv, defaulted_var.
    cbn [negb applyWriteRequest withVar]. rewrite Hacl.
    cbn [Op withVar vdMeta withVarNamespace Namespace withNamespace Path].
    rewrite Hperm. eexists; reflexivity.
Qed.

(** C10: Apply works on the target namespace, that is the variable's own
    namespace when it has one (whatever the request's namespace is) and
    the request's namespace otherwise.  The ACL check is made on the
    target namespace; and whenever a record is submitted, the ACL granted
    the operation on the target namespace, validation ran on the variable
    with the target namespace, and the record carries the namespace of
    the validated variable, which is the target namespace for the
    operations that do not canonicalize, and for the others as soon as
    canonicalization keeps a non-empty namespace. *)
Theorem Apply_namespace_defaulting (args : VariablesApplyRequest)
    (reply : VariablesApplyResponse) (w : World T) (v : VariableDecrypted) :
  Var args = Some v ->
  let ns := targetNamespace args v in
  (Namespace (vdMeta v) = "" -> ns = RequestNamespace (applyWriteRequest args))
  /\ (Namespace (vdMeta v) <> "" -> ns = Namespace (vdMeta v))
  /\ (forall aclObj err,
        forwardApply srv args reply = None ->
        Authenticate srv (wrAuthToken (applyWriteRequest args)) = None ->
        ServersMeetMinimumVersion srv = true ->
        ResolveACL srv (wrAuthToken (applyWriteRequest args)) = inr aclObj ->
        hasOperationPermissions aclObj ns (Path (vdMeta v)) (Op args) = Some err ->
        Apply srv args reply w =
          (w, Return (withVar (withVarNamespace ns v) args, reply, Some err)))
  /\ (forall req,
        raftLog (fst (Apply srv args reply w)) = (raftLog w ++ [req])%list ->
        exists aclObj args2 v2 ev,
          ResolveACL srv (wrAuthToken (applyWriteRequest args)) = inr aclObj
          /\ hasOperationPermissions aclObj ns (Path (vdMeta v)) (Op args) = None
          /\ canonicalizeAndValidate (withVar (withVarNamespace ns v) args)
               = Return (args2, None)
          /\ Var args2 = Some v2
          /\ sreqVar req = Some ev
          /\ Namespace (veMeta ev) = Namespace (vdMeta v2)
          /\ (Op args = VarOpDelete \/ Op args = VarOpDeleteCAS \/
              Op args = VarOpLockRelease ->
              Namespace (veMeta ev) = ns)
          /\ ((forall x, Namespace (vdMeta x) <> "" ->
                 Namespace (vdMeta (Canonicalize x)) = Namespace (vdMeta x)) ->
              ns <> "" ->
              Namespace (veMeta ev) = ns)).
Proof.
  intros Hv ns. subst ns. split; [|split; [|split]].
  - intros H. unfold targetNamespace. rewrite H. reflexivity.
  - intros H. unfold targetNamespace. rewrite (eqb_empty_false _ H). reflexivity.
  - intros aclObj err Hfwd Hauth Hver Hacl Hperm.
    unfold Apply. rewrite Hfwd, Hauth, Hv, defaulted_var, Hver.
    cbn [negb applyWriteRequest withVar]. rewrite Hacl.
    cbn [Op withVar vdMeta withVarNamespace Namespace withNamespace Path].
    rewrite Hperm. reflexivity.
  - intros req Hreq.
    destruct (Apply_run args reply w)
      as [[Hsame _]
         | (v' & aclObj & args2 & v2 & req' & Hv' & Hacl & Hperm & Hcv & Hv2 & Hlog
            & Hop & Hrec & _)].
    { rewrite Hsame in Hreq. now apply app_singleton_neq in Hreq. }
    rewrite Hlog in Hreq. apply app_inj_tail in Hreq as [_ <-].
    rewrite Hv in Hv'. injection Hv' as <-.
    set (v1 := withVarNamespace (targetNamespace args v) v) in *.
    destruct (canonicalizeAndValidate_namespace (withVar v1 args) args2 None v1 v2
                eq_refl Hcv Hv2) as [Hsame Hlaw].
    cbn [Op withVar] in Hsame.
    assert (Hns1 : Namespace (vdMeta v1) = targetNamespace args v) by reflexivity.
    assert (Hev : exists ev, sreqVar req' = Some ev /\
                    Namespace (veMeta ev) = Namespace (vdMeta v2)).
    { unfold submittedRecord in Hrec. unfold hasOperationPermissions in Hperm.
      destruct (Op args); try discriminate;
        try (destruct Hrec as (b & data & keyID & _ & _ & ->));
        try rewrite Hrec; eexists; split; reflexivity. }
    destruct Hev as (ev & Hev & Hnsev).
    exists aclObj, args2, v2, ev.
    do 5 (split; [assumption|]). split; [exact Hnsev|]. split.
    + intros Hops. rewrite Hnsev, (Hsame Hops). exact Hns1.
    + intros Hcanon Hne. rewrite Hnsev, (Hlaw Hcanon); [exact Hns1|].
      rewrite Hns1. exact Hne.
Qed.

End ApplyFacts.

(** ** The reply of Apply *)

Section ApplyReplyFacts.
Context {structs : Structs} {T : Type} {timerRegistry : variableTimers T}.
Variable srv : Server.









End ApplyReplyFacts.

(** ** The theorems at work on the concrete cluster *)









Lemma Read_result_witness :
  (Demo.read (Demo.readRequest "reader" "a/b") Demo.emptyReadReply Demo.world0
     = (afterDecrypt Demo.world0 (Data Demo.storedVar) "key-1",
        Return ({| readData :=
                     Some {| vdMeta :=
                               {| Namespace := "default"; Path := "a/b";
                                  CreateIndex := 5; ModifyIndex := 7;
                                  CreateTime := 1000; ModifyTime := 2000;
                                  Lock := None |};
                             Items := Some Demo.items1 |};
                   readQueryMeta := {| qmIndex := 7 |} |},
                None)))
  /\ (Demo.read (Demo.readRequest "root" "a/b") Demo.emptyReadReply Demo.world0
        = (afterDecrypt Demo.world0 (Data Demo.storedVar) "key-1",
           Return ({| readData :=
                        Some {| vdMeta :=
                                  {| Namespace := "default"; Path := "a/b";
                                     CreateIndex := 5; ModifyIndex := 7;
                                     CreateTime := 1000; ModifyTime := 2000;
                                     Lock := Some Demo.lock1 |};
                                Items := Some Demo.items1 |};
                      readQueryMeta := {| qmIndex := 7 |} |},
                   None)))
  /\ (Demo.read (Demo.readRequest "reader" "no/such") Demo.emptyReadReply Demo.world0
        = (Demo.world0,
           Return ({| readData := None; readQueryMeta := {| qmIndex := 7 |} |}, None))).
Proof.
  split; [|split].
  - destruct (proj1 (@Read_result Demo.demoStructs Demo.Registry Demo.srv
                       (Demo.readRequest "reader" "a/b") Demo.emptyReadReply
                       Demo.readerACL Demo.world0 eq_refl eq_refl eq_refl eq_refl)
                Demo.storedVar (Data Demo.storedVar) (Some Demo.items1)
                eq_refl eq_refl eq_refl)
      as ([[ns path ci mi ct mt lk] its] & Hrun & Hits & Hns & Hp & Hci & Hmi & Hct & Hmt
          & _ & Hlock).
    cbn in Hits, Hns, Hp, Hci, Hmi, Hct, Hmt, Hlock.
    specialize (Hlock eq_refl). subst. exact Hrun.
  - destruct (proj1 (@Read_result Demo.demoStructs Demo.Registry Demo.srv
                       (Demo.readRequest "root" "a/b") Demo.emptyReadReply
                       Demo.managementACL Demo.world0 eq_refl eq_refl eq_refl eq_refl)
                Demo.storedVar (Data Demo.storedVar) (Some Demo.items1)
                eq_refl eq_refl eq_refl)
      as ([[ns path ci mi ct mt lk] its] & Hrun & Hits & Hns & Hp & Hci & Hmi & Hct & Hmt
          & Hlock & _).
    cbn in Hits, Hns, Hp, Hci, Hmi, Hct, Hmt, Hlock.
    specialize (Hlock eq_refl). subst. exact Hrun.
  - exact (proj2 (@Read_result Demo.demoStructs Demo.Registry Demo.srv
                    (Demo.readRequest "reader" "no/such") Demo.emptyReadReply
                    Demo.readerACL Demo.world0 eq_refl eq_refl eq_refl eq_refl)
             eq_refl).
Defined.

Lemma RenewLock_outcomes_witness :
  (Demo.renewLock (Demo.renewRequest "writer" "lock-2") Demo.emptyRenewReply Demo.world0
     = (Demo.world0, Return (Demo.emptyRenewReply, Some errVarIsLocked)))
  /\ (snd (Demo.renewLock (Demo.renewRequest "writer" "lock-1") Demo.emptyRenewReply
             Demo.worldExpired)
        = Return (Demo.emptyRenewReply, Some errVarIsLocked))
  /\ (snd (Demo.renewLock (Demo.renewRequest "writer" "lock-1") Demo.emptyRenewReply
             Demo.world0)
        = Return ({| VarMeta := Some (veMeta Demo.storedVar);
                     renewWriteMeta := {| Index := 7 |} |}, None)).
Proof.
  split; [|split].
  - apply (proj1 (@RenewLock_outcomes Demo.demoStructs Demo.Registry Demo.registryTimers
                    Demo.srv (Demo.renewRequest "writer" "lock-2") Demo.emptyRenewReply
                    Demo.writerACL Demo.storedVar Demo.lock1 Demo.world0
                    eq_refl eq_refl eq_refl eq_refl eq_refl eq_refl eq_refl eq_refl)).
    discriminate.
  - unfold Demo.renewLock.
    rewrite (proj1 (proj2 (@RenewLock_outcomes Demo.demoStructs Demo.Registry
                    Demo.registryTimers
                    Demo.srv (Demo.renewRequest "writer" "lock-1") Demo.emptyRenewReply
                    Demo.writerACL Demo.storedVar Demo.lock1 Demo.worldExpired
                    eq_refl eq_refl eq_refl eq_refl eq_refl eq_refl eq_refl eq_refl))
               eq_refl (ErrExternal "lock expired") eq_refl).
    reflexivity.
  - unfold Demo.renewLock.
    rewrite (proj2 (proj2 (@RenewLock_outcomes Demo.demoStructs Demo.Registry
                    Demo.registryTimers
                    Demo.srv (Demo.renewRequest "writer" "lock-1") Demo.emptyRenewReply
                    Demo.writerACL Demo.storedVar Demo.lock1 Demo.world0
                    eq_refl eq_refl eq_refl eq_refl eq_refl eq_refl eq_refl eq_refl))
               eq_refl eq_refl).
    reflexivity.
Defined.

Lemma Apply_requires_capability_witness :
  let v := Demo.var "" "a/b" None (Some Demo.items1) in
  let args := Demo.request VarOpSet "reader" v in
  fst (Demo.apply args Demo.emptyReply Demo.world0) = Demo.world0
  /\ exists args',
       snd (Demo.apply args Demo.emptyReply Demo.world0)
         = Return (args', Demo.emptyReply, Some ErrPermissionDenied).
Proof.
  intros v args.
  destruct (@Apply_requires_capability Demo.demoStructs Demo.Registry
              Demo.registryTimers Demo.srv args Demo.emptyReply Demo.world0 v
              Demo.readerACL VariablesCapabilityWrite eq_refl eq_refl eq_refl eq_refl)
    as [Hworld Herr].
  split; [exact Hworld | exact (Herr eq_refl eq_refl)].
Defined.

Lemma Apply_namespace_defaulting_witness :
  let v := Demo.var "" "a/b" None (Some Demo.items1) in
  let args := {| Op := VarOpSet; Var := Some v;
                 applyWriteRequest :=
                   {| wrRegion := "global"; wrNamespace := "prod";
                      wrAuthToken := "writer" |} |} in
  let w' := fst (Demo.apply args Demo.emptyReply Demo.world0) in
  targetNamespace (structs := Demo.demoStructs) args v = "prod"
  /\ exists req ev,
       raftLog w' = [req] /\ sreqVar req = Some ev /\ Namespace (veMeta ev) = "prod".
Proof.
  intros v args w'. split; [reflexivity|].
  pose (ev := {| veMeta := withTimes 3000 3000 (withNamespace "prod" (vdMeta v));
                 Data := []; KeyID := "key-1" |}).
  pose (req := {| sreqOp := VarOpSet; sreqVar := Some ev;
                  sreqWriteRequest := applyWriteRequest args |}).
  destruct (proj2 (proj2 (proj2
              (@Apply_namespace_defaulting Demo.demoStructs Demo.Registry
                 Demo.registryTimers Demo.srv args Demo.emptyReply Demo.world0 v
                 eq_refl))) req eq_refl)
    as (aclObj & args2 & v2 & ev' & _ & _ & _ & _ & Hev & _ & _ & Hns).
  exists req, ev'. split; [reflexivity|]. split; [exact Hev|].
  apply Hns; [|discriminate].
  intros x Hx. simpl. apply eqb_empty_false in Hx.
  unfold Demo.canonicalize. simpl. rewrite Hx. reflexivity.
Defined.

(** ** Further properties of validation and authorization *)

Section MoreValidationFacts.
Context {structs : Structs}.

(** X1: canonicalizeAndValidate panics exactly when the variable is nil
    and the operation is Set, CAS or LockAcquire (the deletions and the
    release test for nil themselves); whenever it returns, the operation
    and the write request are those it was given, and for every
    operation other than Set, CAS and LockAcquire the request comes back
    untouched, whatever the verdict. *)
Theorem canonicalizeAndValidate_frame (args : VariablesApplyRequest) :
  (canonicalizeAndValidate args = Panic <->
   Var args = None /\
   (Op args = VarOpSet \/ Op args = VarOpCAS \/ Op args = VarOpLockAcquire))
  /\ (forall args2 err,
        canonicalizeAndValidate args = Return (args2, err) ->
        Op args2 = Op args /\ applyWriteRequest args2 = applyWriteRequest args
        /\ (Op args <> VarOpSet -> Op args <> VarOpCAS -> Op args <> VarOpLockAcquire ->
            args2 = args)).
Proof.
  split.
  - unfold canonicalizeAndValidate. split.
    + repeat case_match; intros; simplify_eq; auto.
    + intros [-> [-> | [-> | ->]]]; reflexivity.
  - intros args2 err. unfold canonicalizeAndValidate.
    repeat case_match; intros; simplify_eq; simpl; repeat split; congruence.
Qed.

(** X3: every error canonicalizeAndValidate returns is coded 400, except
    that on LockRelease the error of structs.ValidatePath is handed back
    as it is. *)
Theorem canonicalizeAndValidate_error_class (args args2 : VariablesApplyRequest)
    (e : error) :
  canonicalizeAndValidate args = Return (args2, Some e) ->
  isInvalidArgument e = true
  \/ (Op args = VarOpLockRelease /\
      exists v, Var args = Some v /\ ValidatePath (Path (vdMeta v)) = Some e).
Proof.
  unfold canonicalizeAndValidate.
  repeat case_match; intros; simplify_eq; auto.
  right. split; [reflexivity|]. eauto.
Qed.

(** X4: authorization of a write looks at nothing but the write and the
    destroy capability on the namespace and path, asked without a claim:
    two ACL objects that agree on these two answers get the same verdict
    for every operation, whatever else they grant and whether or not
    they are management. *)
Theorem hasOperationPermissions_only_write_destroy (acl1 acl2 : ACL)
    (namespace path : string) (op : VarOp) :
  AllowVariableOperation acl1 namespace path VariablesCapabilityWrite None
    = AllowVariableOperation acl2 namespace path VariablesCapabilityWrite None ->
  AllowVariableOperation acl1 namespace path VariablesCapabilityDestroy None
    = AllowVariableOperation acl2 namespace path VariablesCapabilityDestroy None ->
  hasOperationPermissions acl1 namespace path op
    = hasOperationPermissions acl2 namespace path op.
Proof.
  intros Hw Hd. unfold hasOperationPermissions.
  destruct op; rewrite ?Hw, ?Hd; reflexivity.
Qed.

End MoreValidationFacts.

Lemma canonicalizeAndValidate_error_class_witness :
  isInvalidArgument errNoPath = true
  \/ (VarOpDelete = VarOpLockRelease /\
      exists v, Some (Demo.var "default" "" None None) = Some v /\
                Demo.validatePath (Path (vdMeta v)) = Some errNoPath).
Proof.
  exact (@canonicalizeAndValidate_error_class Demo.demoStructs
           (Demo.request VarOpDelete "writer" (Demo.var "default" "" None None))
           _ errNoPath eq_refl).
Defined.

Lemma hasOperationPermissions_only_write_destroy_witness :
  hasOperationPermissions Demo.writerACL "default" "a/b" VarOpDelete
    = hasOperationPermissions Demo.managementACL "default" "a/b" VarOpDelete.
Proof.
  exact (hasOperationPermissions_only_write_destroy Demo.writerACL Demo.managementACL
           "default" "a/b" VarOpDelete eq_refl eq_refl).
Defined.

(** ** Further properties of the response assembly and of encryption *)

Section MoreResponseFacts.
Context {structs : Structs} {T : Type} {timerRegistry : variableTimers T}.
Variable srv : Server.

(** Every way makeVariablesApplyResponse can end, by the branch of the
    state machine's answer. *)
Lemma make_cases (req : VariablesApplyRequest) (eResp : VarApplyStateResponse)
    (aclObj : ACL) (w : World T) :
  match snd (makeVariablesApplyResponse srv req eResp aclObj w) with
  | Panic =>
      Var req = None
      \/ (IsOk eResp = false /\ IsError eResp = false /\ srespConflict eResp = None)
  | Return (None, eo) =>
      (exists e, eo = Some e)
      /\ IsOk eResp = false /\ IsError eResp = false
      /\ exists reqVar c,
           Var req = Some reqVar /\ srespConflict eResp = Some c
           /\ hasReadPermission aclObj (Namespace (vdMeta reqVar)) (Path (vdMeta reqVar))
                = true
           /\ KeyID c <> ""
  | Return (Some r, eo) =>
      respOp r = srespOp eResp /\ Input r = Var req /\ Error r = srespError eResp
      /\ respWriteMeta r = srespWriteMeta eResp
      /\ (IsOk eResp = true /\ eo = None /\ Conflict r = None
          /\ Result r = srespResult eResp
          /\ (Output r = None <-> WrittenSVMeta eResp = None)
          \/ IsOk eResp = false /\ IsError eResp = true /\ eo = srespError eResp
             /\ Conflict r = None /\ Output r = None /\ Result r = srespResult eResp
          \/ IsOk eResp = false /\ IsError eResp = false /\ eo = None
             /\ Output r = None /\ Conflict r <> None
             /\ (Result r = srespResult eResp \/ Result r = VarOpResultRedacted))
  end.
Proof.
  unfold makeVariablesApplyResponse, panic, ret.
  destruct (Var req) as [reqVar|]; [|simpl; auto].
  destruct (IsOk eResp) eqn:Hok.
  { destruct (WrittenSVMeta eResp); simpl; do 4 (split; [reflexivity|]);
      left; repeat split; auto; intros; discriminate. }
  destruct (IsError eResp) eqn:Herr.
  { simpl. do 4 (split; [reflexivity|]). right. left. repeat split; auto. }
  destruct (srespConflict eResp) as [c|]; [|simpl; auto].
  destruct (hasReadPermission _ _ _) eqn:Hread; simpl.
  2:{ do 4 (split; [reflexivity|]). right. right.
      repeat split; auto; try discriminate. }
  destruct (String.eqb (KeyID c) "") eqn:Hkey; simpl.
  { do 4 (split; [reflexivity|]). right. right.
    repeat split; auto; try discriminate. }
  apply String.eqb_neq in Hkey.
  rewrite bind_unfold.
  destruct (decrypt srv c w) as [w' [[e|dv]|]] eqn:Hd; simpl.
  - split; [eauto|]. repeat split; auto. exists reqVar, c. auto.
  - do 4 (split; [reflexivity|]). right. right.
    repeat split; auto; try discriminate.
  - unfold decrypt in Hd. rewrite bind_unfold in Hd. unfold callDecrypt, ret in Hd.
    repeat case_match; simplify_eq.
Qed.

(** X5: whenever makeVariablesApplyResponse returns, the response it
    hands back echoes the operation, the error field and the write meta
    of the state machine's answer and the request's variable as Input;
    Output and Conflict are never both set, Output is set only on a
    success and Conflict only on a conflict; an error comes back only on
    an error answer or on a failed decryption; and the response pointer
    is nil only together with an error. *)
Theorem makeVariablesApplyResponse_shape (req : VariablesApplyRequest)
    (eResp : VarApplyStateResponse) (aclObj : ACL) (w : World T)
    (ro : option VariablesApplyResponse) (eo : option error) :
  snd (makeVariablesApplyResponse srv req eResp aclObj w) = Return (ro, eo) ->
  (ro = None -> eo <> None /\ IsOk eResp = false /\ IsError eResp = false)
  /\ (eo <> None -> ro = None \/ IsError eResp = true /\ eo = srespError eResp)
  /\ (forall r, ro = Some r ->
        respOp r = srespOp eResp /\ Input r = Var req /\ Error r = srespError eResp
        /\ respWriteMeta r = srespWriteMeta eResp
        /\ (Output r = None \/ Conflict r = None)
        /\ (Output r <> None -> IsOk eResp = true)
        /\ (Conflict r <> None -> IsOk eResp = false /\ IsError eResp = false)
        /\ (Result r = srespResult eResp \/ Result r = VarOpResultRedacted)).
Proof.
  intros Hrun. pose proof (make_cases req eResp aclObj w) as H. rewrite Hrun in H.
  destruct ro as [r|].
  - destruct H as (Hop & Hin & Herr & Hwm & Hbranch).
    split; [discriminate|]. split.
    + intros Heo. right.
      destruct Hbranch as [(_ & -> & _) | [(_ & Hie & -> & _) | (_ & _ & -> & _)]];
        try contradiction; auto.
    + intros r' [= <-]. repeat split; auto.
      * destruct Hbranch as [(_ & _ & Hc & _) | [(_ & _ & _ & Hc & _) | (_ & _ & _ & Ho & _)]];
          auto.
      * destruct Hbranch as [(Hok & _) | [(_ & _ & _ & _ & Ho & _) | (_ & _ & _ & Ho & _)]];
          auto; intros; contradiction.
      * destruct Hbranch as [(_ & _ & Hc & _) | [(_ & _ & _ & Hc & _) | (Hok & _)]];
          auto; intros; contradiction.
      * destruct Hbranch as [(_ & _ & Hc & _) | [(_ & _ & _ & Hc & _) | (_ & Hie & _)]];
          auto; intros; contradiction.
      * destruct Hbranch
          as [(_ & _ & _ & Hr & _) | [(_ & _ & _ & _ & _ & Hr) | (_ & _ & _ & _ & _ & Hr)]];
          auto.
  - destruct H as ((e & ->) & Hok & Herr & _).
    split; [intros _; repeat split; auto; discriminate|].
    split; [auto|]. intros r [=].
Qed.

(** X6: given an answer of the state machine that is not a nil
    pointer, makeVariablesApplyResponse panics exactly when the request
    has no variable, or the answer is neither a success nor an error and
    carries no conflict value: the conflict is dereferenced before the
    test for nil that follows it.  (A nil answer, which the discarded
    type assertion in Apply can produce, is outside this statement: the
    answer here is a record.) *)
Theorem makeVariablesApplyResponse_panics_iff (req : VariablesApplyRequest)
    (eResp : VarApplyStateResponse) (aclObj : ACL) (w : World T) :
  snd (makeVariablesApplyResponse srv req eResp aclObj w) = Panic
  <-> Var req = None
      \/ (IsOk eResp = false /\ IsError eResp = false /\ srespConflict eResp = None).
Proof.
  split.
  - intros Hrun. pose proof (make_cases req eResp aclObj w) as H.
    rewrite Hrun in H. exact H.
  - unfold makeVariablesApplyResponse, panic.
    intros [-> | (-> & -> & ->)]; [reflexivity|].
    destruct (Var req); reflexivity.
Qed.

(** X7: what a caller without read capability gets back on a conflict
    does not depend on the stored ciphertext or its key: two answers of
    the state machine that differ only in the Data and KeyID of their
    conflict value give the same response and leave the same world. *)
Theorem redacted_conflict_hides_ciphertext (req : VariablesApplyRequest)
    (reqVar : VariableDecrypted) (eResp1 eResp2 : VarApplyStateResponse)
    (c1 c2 : VariableEncrypted) (aclObj : ACL) (w : World T) :
  Var req = Some reqVar ->
  hasReadPermission aclObj (Namespace (vdMeta reqVar)) (Path (vdMeta reqVar)) = false ->
  IsOk eResp1 = false -> IsError eResp1 = false ->
  srespConflict eResp1 = Some c1 -> srespConflict eResp2 = Some c2 ->
  veMeta c1 = veMeta c2 ->
  srespOp eResp1 = srespOp eResp2 -> srespResult eResp1 = srespResult eResp2 ->
  srespError eResp1 = srespError eResp2 ->
  srespWriteMeta eResp1 = srespWriteMeta eResp2 ->
  makeVariablesApplyResponse srv req eResp1 aclObj w
    = makeVariablesApplyResponse srv req eResp2 aclObj w
  /\ fst (makeVariablesApplyResponse srv req eResp1 aclObj w) = w.
Proof.
  intros Hv Hread Hok Herr Hc1 Hc2 Hmeta Hop Hres Herror Hwm.
  assert (Hok2 : IsOk eResp2 = false) by (unfold IsOk in *; rewrite <- Hres; exact Hok).
  assert (Herr2 : IsError eResp2 = false)
    by (unfold IsError in *; rewrite <- Hres; exact Herr).
  unfold makeVariablesApplyResponse.
  rewrite Hv, Hok, Herr, Hok2, Herr2, Hc1, Hc2, Hread, Hmeta, Hop, Hres, Herror, Hwm.
  split; reflexivity.
Qed.

(** X8: encryption followed by decryption gives the variable back, when
    the encrypter decrypts what it encrypted and the codec decodes what
    it encoded: the metadata is carried through unchanged, the key ID
    returned by Encrypt is the one handed to Decrypt, and the encrypter
    is called exactly twice. *)
Theorem encrypt_decrypt_roundtrip (v : VariableDecrypted) (b data : bytes)
    (keyID : string) (w : World T) :
  Marshal srv (Items v) = inr b ->
  Encrypt srv b = inr (data, keyID) ->
  Decrypt srv data keyID = inr b ->
  Unmarshal srv b = inr (Items v) ->
  exists ev w1 w2,
    encrypt srv v w = (w1, Return (inr ev))
    /\ veMeta ev = vdMeta v /\ KeyID ev = keyID
    /\ decrypt srv ev w1 = (w2, Return (inr v))
    /\ cryptoLog w2 = (cryptoLog w ++ [CallEncrypt b; CallDecrypt data keyID])%list
    /\ raftLog w2 = raftLog w /\ timers w2 = timers w.
Proof.
  intros Hm He Hd Hu.
  exists {| veMeta := vdMeta v; Data := data; KeyID := keyID |}.
  do 2 eexists. split.
  { unfold encrypt. rewrite Hm, bind_unfold. unfold callEncrypt. rewrite He. reflexivity. }
  split; [reflexivity|]. split; [reflexivity|]. split.
  { unfold decrypt. rewrite bind_unfold. unfold callDecrypt. cbn [Data KeyID].
    rewrite Hd. cbn iota beta. rewrite Hu. destruct v. reflexivity. }
  cbn. rewrite <- app_assoc. auto.
Qed.

End MoreResponseFacts.

Lemma makeVariablesApplyResponse_shape_witness :
  let req := Demo.request VarOpCAS "writer" (Demo.var "default" "a/b" None None) in
  let r := {| respOp := VarOpCAS; Input := Var req; Result := VarOpResultRedacted;
              Error := None;
              Conflict := Some {| vdMeta := veMeta Demo.storedVar; Items := None |};
              Output := None; respWriteMeta := {| Index := 9 |} |} in
  Output r = None \/ Conflict r = None.
Proof.
  intros req r.
  destruct (@makeVariablesApplyResponse_shape Demo.demoStructs Demo.Registry Demo.srv
              req (Demo.conflictWith Demo.storedVar) Demo.writerACL Demo.world0
              (Some r) None eq_refl) as (_ & _ & H).
  destruct (H r eq_refl) as (_ & _ & _ & _ & Hex & _). exact Hex.
Defined.

Lemma redacted_conflict_hides_ciphertext_witness :
  let req := Demo.request VarOpCAS "writer" (Demo.var "default" "a/b" None None) in
  Demo.makeResponse req (Demo.conflictWith Demo.storedVar) Demo.writerACL Demo.world0
    = Demo.makeResponse req (Demo.conflictWith Demo.keylessConflict) Demo.writerACL
        Demo.world0.
Proof.
  intros req.
  exact (proj1 (@redacted_conflict_hides_ciphertext Demo.demoStructs Demo.Registry
                  Demo.srv req (Demo.var "default" "a/b" None None)
                  (Demo.conflictWith Demo.storedVar)
                  (Demo.conflictWith Demo.keylessConflict)
                  Demo.storedVar Demo.keylessConflict Demo.writerACL Demo.world0
                  eq_refl eq_refl eq_refl eq_refl eq_refl eq_refl eq_refl eq_refl
                  eq_refl eq_refl eq_refl)).
Defined.

Lemma encrypt_decrypt_roundtrip_witness :
  let v := Demo.var "default" "a/b" None (Some Demo.items1) in
  exists ev w1 w2,
    @encrypt Demo.Registry Demo.srv v Demo.world0 = (w1, Return (inr ev))
    /\ @decrypt Demo.Registry Demo.srv ev w1 = (w2, Return (inr v)).
Proof.
  intros v.
  destruct (@encrypt_decrypt_roundtrip Demo.Registry Demo.srv v [] [] "key-1"
              Demo.world0 eq_refl eq_refl eq_refl eq_refl)
    as (ev & w1 & w2 & He & _ & _ & Hd & _).
  exists ev, w1, w2. split; assumption.
Defined.

(** ** Further properties of Apply *)

Section MoreApplyFacts.
Context {structs : Structs} {T : Type} {timerRegistry : variableTimers T}.
Variable srv : Server.

Lemma encrypt_returns (v : VariableDecrypted) (w : World T) :
  snd (encrypt srv v w) <> Panic.
Proof.
  unfold encrypt. destruct (Marshal srv (Items v)); [discriminate|].
  rewrite bind_unfold. unfold callEncrypt. destruct (Encrypt srv _) as [e|[d k]]; discriminate.
Qed.

Lemma canonicalizeAndValidate_returns (args : VariablesApplyRequest)
    (v : VariableDecrypted) :
  Var args = Some v -> canonicalizeAndValidate args <> Panic.
Proof.
  intros Hv. unfold canonicalizeAndValidate. rewrite Hv.
  repeat case_match; discriminate.
Qed.

(** Every way a run of Apply on this server can end: with an error and
    the reply it was given; with a panic, after the state machine
    answered with neither a success nor an error and without a conflict
    value; or with no error, after exactly one record was submitted and
    the reply was assembled from the state machine's answer. *)
Lemma Apply_outcome (args : VariablesApplyRequest) (reply : VariablesApplyResponse)
    (w : World T) :
  forwardApply srv args reply = None ->
  match snd (Apply srv args reply w) with
  | Panic =>
      exists req out idx,
        raftLog (fst (Apply srv args reply w)) = (raftLog w ++ [req])%list
        /\ raftApply srv (raftLog w) req = inr (out, idx)
        /\ IsOk out = false /\ IsError out = false /\ srespConflict out = None
  | Return (args', reply', Some err) => reply' = reply
  | Return (args', reply', None) =>
      exists req out idx,
        raftLog (fst (Apply srv args reply w)) = (raftLog w ++ [req])%list
        /\ raftApply srv (raftLog w) req = inr (out, idx)
        /\ sreqOp req = Op args /\ Op args' = Op args
        /\ Index (respWriteMeta reply') = idx
        /\ respOp reply' = srespOp out
        /\ Result reply' = (if Result reply' is VarOpResultRedacted
                            then VarOpResultRedacted else srespResult out)
        /\ Input reply' = Var args'
        /\ Error reply' = srespError out
        /\ (IsError out = true -> srespError out = None)
  end.
Proof.
  intros Hfwd. unfold Apply. rewrite Hfwd.
  destruct (Authenticate srv _); [reflexivity|].
  destruct (Var args) as [v|] eqn:Hv; [|reflexivity].
  rewrite defaulted_var. set (v1 := withVarNamespace _ v).
  destruct (ServersMeetMinimumVersion srv); cbn [negb]; cbv iota; [|reflexivity].
  destruct (ResolveACL srv _) as [e|aclObj] eqn:Hacl; [reflexivity|].
  destruct (hasOperationPermissions _ _ _ _) eqn:Hperm; [reflexivity|].
  rewrite !bind_unfold with (m := lift _). unfold lift.
  destruct (canonicalizeAndValidate (withVar v1 args)) as [[args2 verr]|] eqn:Hcv.
  2:{ exfalso. revert Hcv. apply (canonicalizeAndValidate_returns _ v1). reflexivity. }
  cbn [fst snd]. destruct verr; [reflexivity|].
  destruct (canonicalizeAndValidate_shape (withVar v1 args) _ _ v1 eq_refl Hcv)
    as (Hop & Hwr & v2 & Hv2).
  cbn [Op applyWriteRequest withVar] in Hop, Hwr. rewrite Hop, Hv2, Hwr.
  rewrite !bind_unfold with (k := fun encrypted => match encrypted with
                                                   | inl _ => _ | inr _ => _ end).
  match goal with |- context [match ?m w with _ => _ end] => set (enc := m) end.
  assert (Henc : sameLogTimers w (fst (enc w)) /\ snd (enc w) <> Panic /\
                 forall evo, snd (enc w) = Return (inr evo) ->
                   submittedRecord srv (Op args) v2 evo).
  { subst enc. unfold submittedRecord.
    destruct (Op args); rewrite ?bind_unfold; unfold ret; simpl.
    all: try solve [split; [split; reflexivity
                           | split; [discriminate | intros; simplify_eq; eauto]]].
    all: pose proof (encrypt_frame srv v2 w) as Hf;
      pose proof (encrypt_returns v2 w) as Hn;
      pose proof (fun ev => encrypt_result srv v2 ev w) as Hr;
      destruct (encrypt srv v2 w) as [w1 [[e|ev]|]]; simpl in *;
      (split; [exact Hf |]); (split; [first [discriminate | exact Hn | exfalso; now apply Hn] |]);
      intros evo Hevo; simplify_eq;
      destruct (Hr ev eq_refl) as (b & data & keyID & Hm & He & ->);
      exists b, data, keyID; auto. }
  destruct Henc as [[Hlog Htim] [Hnp Hev]].
  destruct (enc w) as [w1 [[e|evo]|]]; cbn [fst snd] in Hlog, Htim, Hev, Hnp;
    [reflexivity | | contradiction].
  specialize (Hev evo eq_refl).
  rewrite !bind_unfold with (m := callRaftApply _ _). unfold callRaftApply.
  rewrite Hlog, Htim.
  set (req := {| sreqOp := Op args; sreqVar := evo;
                 sreqWriteRequest := applyWriteRequest args |}).
  set (w2 := {| raftLog := (raftLog w ++ [req])%list; timers := timers w;
                cryptoLog := cryptoLog w1 |}).
  destruct (raftApply srv (raftLog w) req) as [e|[out idx]] eqn:Hraft; [reflexivity|].
  rewrite !bind_unfold with (m := makeVariablesApplyResponse _ _ _ _).
  pose proof (make_frame srv args2 out aclObj w2) as [Hl2 _].
  pose proof (make_cases srv args2 out aclObj w2) as Hcases.
  destruct (makeVariablesApplyResponse srv args2 out aclObj w2) as [w3 [[ro eo]|]];
    cbn [fst snd] in *.
  2:{ destruct Hcases as [Hnone | (Hok & Herr & Hc)]; [congruence|].
      exists req, out, idx. auto. }
  destruct eo as [e|]; [reflexivity|].
  destruct ro as [r|]; [|destruct Hcases as [[e He] _]; discriminate He].
  destruct Hcases as (Hrop & Hin & Herror & Hwm & Hbranch).
  assert (Hres : Result r = (if Result r is VarOpResultRedacted
                             then VarOpResultRedacted else srespResult out)).
  { destruct Hbranch
      as [(_ & _ & _ & Hr & _) | [(_ & _ & _ & _ & _ & Hr) | (_ & _ & _ & _ & _ & [Hr|Hr])]];
      rewrite Hr; [| |..]; try (destruct (srespResult out); reflexivity). }
  assert (Hnil : IsError out = true -> srespError out = None).
  { destruct Hbranch as [(Hok & _) | [(_ & _ & He & _) | (_ & Hie & _)]];
      intros Hie'; try congruence.
    unfold IsOk, IsError in *. destruct (srespResult out); discriminate. }
  rewrite bind_unfold.
  assert (Htimer :
    exists w4,
      (if IsOk out
       then match Op args with
            | VarOpLockAcquire =>
                match evo with
                | Some ev => callCreateTimer (EncryptedCopy ev)
                | None => panic
                end
            | VarOpLockRelease =>
                match evo with
                | Some ev => callRemoveTimer (EncryptedCopy ev)
                | None => panic
                end
            | _ => ret ()
            end
       else ret ()) w3 = (w4, Return ()) /\ raftLog w4 = raftLog w3).
  { unfold submittedRecord in Hev.
    destruct (IsOk out); [|eexists; split; reflexivity].
    destruct (Op args); try (eexists; split; reflexivity);
      destruct Hev as (b & data & keyID & _ & _ & ->); eexists; split; reflexivity. }
  destruct Htimer as (w4 & -> & Hl4).
  cbn. exists req, out, idx. rewrite Hl4, Hl2.
  repeat split; auto.
Qed.

(** X9: the reply is written only on success: whenever a run of Apply
    handled by this server returns an error, whatever its cause (failed
    authentication, nil variable, version gate, ACL, validation,
    encryption, the replicated log, an error answer of the state machine
    or a failed decryption of a conflict), the reply is the one the
    caller passed in. *)
Theorem Apply_error_keeps_reply (args args' : VariablesApplyRequest)
    (reply reply' : VariablesApplyResponse) (err : error) (w : World T) :
  forwardApply srv args reply = None ->
  snd (Apply srv args reply w) = Return (args', reply', Some err) ->
  reply' = reply.
Proof.
  intros Hfwd Hrun. pose proof (Apply_outcome args reply w Hfwd) as H.
  rewrite Hrun in H. exact H.
Qed.

(** X10: a run of Apply handled by this server returns no error only
    after it has added exactly one record to the replicated log, for the
    request's operation, and the state machine has answered it; the
    reply then carries the index the log returned, the operation and the
    error field of the state machine's answer, the validated variable as
    Input, and as Result the state machine's result or the redacted
    marker.  An error answer of the state machine whose Error field is
    nil is among these runs. *)
Theorem Apply_success_submits_once (args args' : VariablesApplyRequest)
    (reply reply' : VariablesApplyResponse) (w : World T) :
  forwardApply srv args reply = None ->
  snd (Apply srv args reply w) = Return (args', reply', None) ->
  exists req out idx,
    raftLog (fst (Apply srv args reply w)) = (raftLog w ++ [req])%list
    /\ raftApply srv (raftLog w) req = inr (out, idx)
    /\ sreqOp req = Op args /\ Op args' = Op args
    /\ Index (respWriteMeta reply') = idx
    /\ respOp reply' = srespOp out
    /\ (Result reply' = srespResult out \/ Result reply' = VarOpResultRedacted)
    /\ Input reply' = Var args'
    /\ Error reply' = srespError out
    /\ (IsError out = true -> srespError out = None).
Proof.
  intros Hfwd Hrun. pose proof (Apply_outcome args reply w Hfwd) as H.
  rewrite Hrun in H.
  destruct H as (req & out & idx & H1 & H2 & H3 & H4 & H5 & H6 & H7 & H8 & H9 & H10).
  exists req, out, idx. repeat split; auto.
  destruct (Result reply'); auto.
Qed.

(** X11: when what the replicated log returns is a state machine
    response (the type assertion on it holds, so the answer is not a nil
    pointer), Apply panics only if the record was submitted and the
    state machine answered with a response that is neither a success nor
    an error and carries no conflict value. *)
Theorem Apply_panics_only_on_malformed_answer (args : VariablesApplyRequest)
    (reply : VariablesApplyResponse) (w : World T) :
  snd (Apply srv args reply w) = Panic ->
  exists req out idx,
    raftLog (fst (Apply srv args reply w)) = (raftLog w ++ [req])%list
    /\ raftApply srv (raftLog w) req = inr (out, idx)
    /\ IsOk out = false /\ IsError out = false /\ srespConflict out = None.
Proof.
  intros Hrun.
  destruct (forwardApply srv args reply) as [[r e]|] eqn:Hfwd.
  { unfold Apply in Hrun. rewrite Hfwd in Hrun. discriminate Hrun. }
  pose proof (Apply_outcome args reply w Hfwd) as H.
  rewrite Hrun in H. exact H.
Qed.

(** X12: an operation that is none of the six is never carried out:
    Apply leaves the world as it is, returns an error on this server,
    and once the request has passed authentication, the version gate and
    ACL resolution the error is the unexpected-operation error, whatever
    the ACL grants. *)
Theorem Apply_unknown_op (args : VariablesApplyRequest) (reply : VariablesApplyResponse)
    (name : string) (w : World T) :
  Op args = VarOpUnknown name ->
  fst (Apply srv args reply w) = w
  /\ (forwardApply srv args reply = None ->
      exists args' err,
        snd (Apply srv args reply w) = Return (args', reply, Some err)
        /\ (Authenticate srv (wrAuthToken (applyWriteRequest args)) = None ->
            Var args <> None ->
            ServersMeetMinimumVersion srv = true ->
            forall aclObj,
              ResolveACL srv (wrAuthToken (applyWriteRequest args)) = inr aclObj ->
              err = Errorf "svPreApply: unexpected VarOp received: %q" [name])).
Proof.
  intros Hop. unfold Apply. split.
  - destruct (forwardApply srv args reply) as [[r e]|]; [reflexivity|].
    destruct (Authenticate srv _); [reflexivity|].
    destruct (Var args) as [v|]; [|reflexivity].
    destruct (ServersMeetMinimumVersion srv); [|reflexivity].
    destruct (ResolveACL srv _); [reflexivity|].
    cbn [negb Op withVar]. rewrite Hop. reflexivity.
  - intros ->.
    destruct (Authenticate srv _); [do 2 eexists; split; [reflexivity|discriminate]|].
    destruct (Var args) as [v|];
      [|do 2 eexists; split; [reflexivity|intros _ Hn; contradiction]].
    destruct (ServersMeetMinimumVersion srv);
      [|do 2 eexists; split; [reflexivity|discriminate]].
    cbn [negb applyWriteRequest withVar].
    destruct (ResolveACL srv _) as [e|aclObj];
      [do 2 eexists; split; [reflexivity|intros _ _ _ a Ha; discriminate Ha]|].
    cbn [Op withVar]. rewrite Hop. do 2 eexists. split; reflexivity.
Qed.

(** X13: whatever canonicalizeAndValidate refuses, Apply refuses with an
    error coded 400 that carries the text of the validation error; the
    world is unchanged (nothing is encrypted or submitted) and the
    caller's request is left as validation left it. *)
Theorem Apply_validation_error (args args2 : VariablesApplyRequest)
    (reply : VariablesApplyResponse) (v : VariableDecrypted) (aclObj : ACL)
    (e : error) (w : World T) :
  forwardApply srv args reply = None ->
  Authenticate srv (wrAuthToken (applyWriteRequest args)) = None ->
  Var args = Some v ->
  ServersMeetMinimumVersion srv = true ->
  ResolveACL srv (wrAuthToken (applyWriteRequest args)) = inr aclObj ->
  hasOperationPermissions aclObj (targetNamespace args v) (Path (vdMeta v)) (Op args)
    = None ->
  canonicalizeAndValidate (withVar (withVarNamespace (targetNamespace args v) v) args)
    = Return (args2, Some e) ->
  Apply srv args reply w =
    (w, Return (args2, reply, Some (ErrRPCCoded 400 (ErrorText e)))).
Proof.
  intros Hfwd Hauth Hv Hver Hacl Hperm Hcv.
  unfold Apply. rewrite Hfwd, Hauth, Hv, defaulted_var, Hver.
  cbn [negb applyWriteRequest withVar]. rewrite Hacl.
  cbn [Op withVar vdMeta withVarNamespace Namespace withNamespace Path].
  rewrite Hperm, bind_unfold. unfold lift. rewrite Hcv. reflexivity.
Qed.

(** X14: the three rejections that come before ACL resolution, on this
    server: a failed authentication is answered with
    ErrPermissionDenied (the authentication error itself is dropped)
    and leaves the request alone; a nil variable is refused next; and a
    cluster below the minimum version is refused after the namespace
    has been defaulted in the caller's request.  None of them changes
    the world or the reply. *)
Theorem Apply_rejections_before_ACL (args : VariablesApplyRequest)
    (reply : VariablesApplyResponse) (w : World T) :
  forwardApply srv args reply = None ->
  (Authenticate srv (wrAuthToken (applyWriteRequest args)) <> None ->
   Apply srv args reply w = (w, Return (args, reply, Some ErrPermissionDenied)))
  /\ (Authenticate srv (wrAuthToken (applyWriteRequest args)) = None ->
      Var args = None ->
      Apply srv args reply w =
        (w, Return (args, reply, Some (Errorf "variable must not be nil" []))))
  /\ (Authenticate srv (wrAuthToken (applyWriteRequest args)) = None ->
      forall v, Var args = Some v ->
      ServersMeetMinimumVersion srv = false ->
      Apply srv args reply w =
        (w, Return (withVar (withVarNamespace (targetNamespace args v) v) args, reply,
                    Some (Errorf
                            "all servers must be running version %v or later to apply variables"
                            [minVersionKeyring srv])))).
Proof.
  intros Hfwd. unfold Apply. rewrite Hfwd. repeat split.
  - destruct (Authenticate srv _); [reflexivity|contradiction].
  - intros -> ->. reflexivity.
  - intros -> v -> ->. rewrite defaulted_var. reflexivity.
Qed.

(** X15: what Apply submits.  The record carries the request's
    operation and an encrypted variable.  For Delete and DeleteCAS this
    is the bare key with the ModifyIndex, path and (defaulted) namespace
    of the request's variable: no payload, no key ID, no lock, zero
    create index and times, whatever items or lock the request carried.
    For the four writing operations it carries the namespace, path,
    create index, modify index and lock of the validated variable, the
    current time as both CreateTime and ModifyTime, and what Encrypt
    returned for the marshalled items of the validated variable. *)
Theorem Apply_submitted_record (args : VariablesApplyRequest)
    (reply : VariablesApplyResponse) (w : World T) (req : VarApplyStateRequest) :
  raftLog (fst (Apply srv args reply w)) = (raftLog w ++ [req])%list ->
  sreqOp req = Op args
  /\ exists v ev,
       Var args = Some v /\ sreqVar req = Some ev
       /\ (Op args = VarOpDelete \/ Op args = VarOpDeleteCAS ->
           ev = {| veMeta := {| Namespace := targetNamespace args v;
                                Path := Path (vdMeta v);
                                CreateIndex := 0;
                                ModifyIndex := ModifyIndex (vdMeta v);
                                CreateTime := 0; ModifyTime := 0;
                                Lock := None |};
                   Data := []; KeyID := "" |})
       /\ (Op args <> VarOpDelete -> Op args <> VarOpDeleteCAS ->
           CreateTime (veMeta ev) = UnixNano srv
           /\ ModifyTime (veMeta ev) = UnixNano srv
           /\ exists args2 v2 b,
                canonicalizeAndValidate
                  (withVar (withVarNamespace (targetNamespace args v) v) args)
                  = Return (args2, None)
                /\ Var args2 = Some v2
                /\ Marshal srv (Items v2) = inr b
                /\ Encrypt srv b = inr (Data ev, KeyID ev)
                /\ Namespace (veMeta ev) = Namespace (vdMeta v2)
                /\ Path (veMeta ev) = Path (vdMeta v2)
                /\ CreateIndex (veMeta ev) = CreateIndex (vdMeta v2)
                /\ ModifyIndex (veMeta ev) = ModifyIndex (vdMeta v2)
                /\ Lock (veMeta ev) = Lock (vdMeta v2)).
Proof.
  intros Hreq.
  destruct (Apply_run srv args reply w)
    as [[Hsame _]
       | (v & aclObj & args2 & v2 & req' & Hv & Hacl & Hperm & Hcv & Hv2 & Hlog
          & Hop & Hrec & _)].
  { rewrite Hsame in Hreq. now apply app_singleton_neq in Hreq. }
  rewrite Hlog in Hreq. apply app_inj_tail in Hreq as [_ <-].
  split; [exact Hop|].
  set (v1 := withVarNamespace (targetNamespace args v) v) in *.
  destruct (canonicalizeAndValidate_namespace (withVar v1 args) args2 None v1 v2
              eq_refl Hcv Hv2) as [Hsame _].
  cbn [Op withVar] in Hsame.
  unfold submittedRecord in Hrec. unfold hasOperationPermissions in Hperm.
  destruct (Op args) eqn:Hopa; try discriminate.
  all: try (destruct Hrec as (b & data & keyID & Hm & He & Hev);
            exists v, {| veMeta := withTimes (UnixNano srv) (UnixNano srv) (vdMeta v2);
                         Data := data; KeyID := keyID |};
            split; [exact Hv|]; split; [exact Hev|];
            split; [intros [?|?]; discriminate|];
            intros _ _; split; [reflexivity|]; split; [reflexivity|];
            exists args2, v2, b; repeat split; auto).
  all: assert (Hv21 : v2 = v1) by (apply Hsame; auto).
  all: subst v2.
  all: exists v.
  all: eexists.
  all: split; [exact Hv|].
  all: split; [exact Hrec|].
  all: split.
  all: first [intros _; reflexivity | intros Hn1 Hn2; congruence].
Qed.

End MoreApplyFacts.

Lemma Apply_error_keeps_reply_witness :
  let args := Demo.request VarOpSet "reader" (Demo.var "" "a/b" None None) in
  let args' := Demo.request VarOpSet "reader" (Demo.var "default" "a/b" None None) in
  let reply := withIndex 41 Demo.emptyReply in
  snd (Demo.apply args reply Demo.world0) = Return (args', reply, Some ErrPermissionDenied)
  /\ reply = reply.
Proof.
  intros args args' reply. split; [reflexivity|].
  exact (@Apply_error_keeps_reply Demo.demoStructs Demo.Registry Demo.registryTimers
           Demo.srv args args' reply reply ErrPermissionDenied Demo.world0
           eq_refl eq_refl).
Defined.

Lemma Apply_success_submits_once_witness :
  let args := Demo.request VarOpSet "writer" (Demo.var "" "a/c" None (Some Demo.items1)) in
  exists args' reply' req out,
    snd (Demo.apply args Demo.emptyReply Demo.world0) = Return (args', reply', None)
    /\ raftLog (fst (Demo.apply args Demo.emptyReply Demo.world0)) = [req]
    /\ raftApply Demo.srv [] req = inr (out, 8)
    /\ Index (respWriteMeta reply') = 8.
Proof.
  intros args.
  destruct (@Apply_success_submits_once Demo.demoStructs Demo.Registry
              Demo.registryTimers Demo.srv args _ Demo.emptyReply _ Demo.world0
              eq_refl eq_refl)
    as (req & out & idx & Hlog & Hraft & _ & _ & Hidx & _).
  do 2 eexists. exists req, out. split; [reflexivity|]. split; [exact Hlog|].
  assert (Hi : idx = 8) by (rewrite <- Hidx; reflexivity).
  rewrite Hi in Hraft. split; [exact Hraft|]. reflexivity.
Defined.

Lemma Apply_panics_only_on_malformed_answer_witness :
  let args := Demo.request VarOpSet "writer" (Demo.var "" "a/c" None (Some Demo.items1)) in
  snd (DemoMore.brokenApply args Demo.emptyReply Demo.world0) = Panic
  /\ exists req out idx,
       raftLog (fst (DemoMore.brokenApply args Demo.emptyReply Demo.world0)) = [req]
       /\ raftApply DemoMore.brokenSrv [] req = inr (out, idx)
       /\ srespConflict out = None.
Proof.
  intros args. split; [reflexivity|].
  destruct (@Apply_panics_only_on_malformed_answer Demo.demoStructs Demo.Registry
              Demo.registryTimers DemoMore.brokenSrv args Demo.emptyReply Demo.world0
              eq_refl)
    as (req & out & idx & Hlog & Hraft & _ & _ & Hc).
  exists req, out, idx. auto.
Defined.

Lemma Apply_unknown_op_witness :
  let args := Demo.request (VarOpUnknown "merge") "root" (Demo.var "" "a/b" None None) in
  fst (Demo.apply args Demo.emptyReply Demo.world0) = Demo.world0
  /\ exists args',
       snd (Demo.apply args Demo.emptyReply Demo.world0)
         = Return (args', Demo.emptyReply,
                   Some (Errorf "svPreApply: unexpected VarOp received: %q" ["merge"])).
Proof.
  intros args.
  destruct (@Apply_unknown_op Demo.demoStructs Demo.Registry Demo.registryTimers
              Demo.srv args Demo.emptyReply "merge" Demo.world0 eq_refl)
    as [Hw Hrun].
  split; [exact Hw|].
  destruct (Hrun eq_refl) as (args' & err & Hsnd & Herr).
  exists args'. unfold Demo.apply. rewrite Hsnd.
  rewrite (Herr eq_refl ltac:(discriminate) eq_refl Demo.managementACL eq_refl).
  reflexivity.
Defined.

Lemma Apply_validation_error_witness :
  let args := Demo.request VarOpDelete "writer" (Demo.var "" "" None None) in
  let args2 := Demo.request VarOpDelete "writer" (Demo.var "default" "" None None) in
  Demo.apply args Demo.emptyReply Demo.world0
    = (Demo.world0,
       Return (args2, Demo.emptyReply, Some (ErrRPCCoded 400 "delete requires a Path"))).
Proof.
  intros args args2.
  exact (@Apply_validation_error Demo.demoStructs Demo.Registry Demo.registryTimers
           Demo.srv args args2 Demo.emptyReply (Demo.var "" "" None None)
           Demo.writerACL errNoPath Demo.world0
           eq_refl eq_refl eq_refl eq_refl eq_refl eq_refl eq_refl).
Defined.

Lemma Apply_rejections_before_ACL_witness :
  let args := Demo.request VarOpSet "" (Demo.var "" "a/b" None None) in
  Demo.apply args Demo.emptyReply Demo.world0
    = (Demo.world0, Return (args, Demo.emptyReply, Some ErrPermissionDenied)).
Proof.
  intros args.
  apply (proj1 (@Apply_rejections_before_ACL Demo.demoStructs Demo.Registry
                  Demo.registryTimers Demo.srv args Demo.emptyReply Demo.world0
                  eq_refl)).
  discriminate.
Defined.

Lemma Apply_submitted_record_witness :
  let v := {| vdMeta := {| Namespace := ""; Path := "a/b"; CreateIndex := 5;
                           ModifyIndex := 7; CreateTime := 0; ModifyTime := 0;
                           Lock := Some Demo.lock1 |};
              Items := Some Demo.items1 |} in
  let u := {| vdMeta := {| Namespace := ""; Path := "a/c"; CreateIndex := 5;
                           ModifyIndex := 7; CreateTime := 1; ModifyTime := 2;
                           Lock := None |};
              Items := Some Demo.items1 |} in
  (exists req ev,
     raftLog (fst (Demo.apply (Demo.request VarOpDeleteCAS "writer" v) Demo.emptyReply
                     Demo.world0)) = [req]
     /\ sreqVar req = Some ev
     /\ ev = {| veMeta := {| Namespace := "default"; Path := "a/b";
                             CreateIndex := 0; ModifyIndex := 7;
                             CreateTime := 0; ModifyTime := 0; Lock := None |};
                Data := []; KeyID := "" |})
  /\ (exists req ev,
        raftLog (fst (Demo.apply (Demo.request VarOpCAS "writer" u) Demo.emptyReply
                        Demo.world0)) = [req]
        /\ sreqVar req = Some ev
        /\ Namespace (veMeta ev) = "default" /\ Path (veMeta ev) = "a/c"
        /\ CreateIndex (veMeta ev) = 5 /\ ModifyIndex (veMeta ev) = 7
        /\ CreateTime (veMeta ev) = 3000 /\ ModifyTime (veMeta ev) = 3000
        /\ Lock (veMeta ev) = None).
Proof.
  intros v u. split.
  - set (req := {| sreqOp := VarOpDeleteCAS;
                   sreqVar := Some {| veMeta := {| Namespace := "default"; Path := "a/b";
                                                   CreateIndex := 0; ModifyIndex := 7;
                                                   CreateTime := 0; ModifyTime := 0;
                                                   Lock := None |};
                                      Data := []; KeyID := "" |};
                   sreqWriteRequest := Demo.writeAs "writer" |}).
    destruct (@Apply_submitted_record Demo.demoStructs Demo.Registry Demo.registryTimers
                Demo.srv (Demo.request VarOpDeleteCAS "writer" v) Demo.emptyReply
                Demo.world0 req eq_refl)
      as (_ & v0 & ev & Hv0 & Hev & Hdel & _).
    exists req, ev. split; [reflexivity|]. split; [exact Hev|].
    injection Hv0 as <-. apply Hdel. right. reflexivity.
  - edestruct (@Apply_submitted_record Demo.demoStructs Demo.Registry Demo.registryTimers
                 Demo.srv (Demo.request VarOpCAS "writer" u) Demo.emptyReply
                 Demo.world0)
      as (_ & v0 & ev & Hv0 & Hev & _ & Hwrite).
    { reflexivity. }
    destruct Hwrite as (Hct & Hmt & args2 & v2 & b & Hcv & Hv2 & _ & _ & Hns & Hp & Hci
                        & Hmi & Hl); [discriminate | discriminate |].
    injection Hv0 as <-. vm_compute in Hcv. injection Hcv as <-.
    injection Hv2 as <-.
    eexists; exists ev. split; [reflexivity|]. split; [exact Hev|].
    repeat split; assumption.
Defined.

(** ** Further properties of Read and RenewLock *)

Section MoreReadRenewFacts.
Context {structs : Structs} {T : Type} {timerRegistry : variableTimers T}.
Variable srv : Server.

(** X16: Read only reads: it never adds to the replicated log and never
    touches the timers; the only calls it makes to the encrypter are
    calls to Decrypt, and it makes none unless the request passed
    authentication and its ACL grants the read policy on the requested
    namespace and path.  Each run of its query function makes at most
    one such call, for the variable stored at the requested namespace
    and path in the state it was run on. *)
Theorem Read_only_reads (args : VariablesReadRequest) (reply : VariablesReadResponse)
    (w : World T) :
  let w' := fst (Read srv args reply w) in
  let token := qoAuthToken (readQueryOptions args) in
  let ns := QueryNamespace (readQueryOptions args) in
  raftLog w' = raftLog w /\ timers w' = timers w
  /\ (exists calls,
        cryptoLog w' = (cryptoLog w ++ calls)%list
        /\ Forall (fun c => exists data keyID, c = CallDecrypt data keyID) calls
        /\ (calls <> [] ->
            Authenticate srv token = None
            /\ exists aclObj,
                 ResolveACL srv token = inr aclObj
                 /\ AllowVariableOperation aclObj ns (readPath args) PolicyRead
                      (IdentityToACLClaim srv token) = true))
  /\ (forall aclObj s r (w0 : World T),
        fst (Read_run srv args aclObj s r w0) = w0
        \/ exists out,
             GetVariable srv s ns (readPath args) = inr (Some out)
             /\ fst (Read_run srv args aclObj s r w0)
                  = afterDecrypt w0 (Data out) (KeyID out)).
Proof.
  intros w' token ns. subst w' token ns.
  assert (Hrun : forall aclObj s r (w0 : World T),
            fst (Read_run srv args aclObj s r w0) = w0
            \/ exists out,
                 GetVariable srv s (QueryNamespace (readQueryOptions args)) (readPath args)
                   = inr (Some out)
                 /\ fst (Read_run srv args aclObj s r w0)
                      = afterDecrypt w0 (Data out) (KeyID out)).
  { intros aclObj s r w0. unfold Read_run.
    destruct (GetVariable srv _ _ _) as [e|[out|]] eqn:Hget; [left; reflexivity| |left; reflexivity].
    right. exists out. split; [reflexivity|].
    rewrite bind_unfold. pose proof (decrypt_logs srv out w0) as Hl.
    destruct (decrypt srv out w0) as [w1 [[e|dv]|]]; cbn [fst] in Hl; subst w1; reflexivity. }
  assert (Hnone : forall x : World T,
            raftLog x = raftLog x /\ timers x = timers x
            /\ exists calls,
                 cryptoLog x = (cryptoLog x ++ calls)%list
                 /\ Forall (fun c => exists data keyID, c = CallDecrypt data keyID) calls
                 /\ (calls <> [] ->
                     Authenticate srv (qoAuthToken (readQueryOptions args)) = None
                     /\ exists aclObj,
                          ResolveACL srv (qoAuthToken (readQueryOptions args)) = inr aclObj
                          /\ AllowVariableOperation aclObj
                               (QueryNamespace (readQueryOptions args)) (readPath args)
                               PolicyRead
                               (IdentityToACLClaim srv (qoAuthToken (readQueryOptions args)))
                             = true)).
  { intros x. split; [reflexivity|]. split; [reflexivity|]. exists [].
    rewrite app_nil_r. split; [reflexivity|]. split; [constructor|]. intros H. now contradiction H. }
  unfold Read.
  destruct (forwardRead srv args reply) as [[r e]|].
  { destruct (Hnone w) as (H1 & H2 & H3). auto. }
  destruct (Authenticate srv _) eqn:Hauth.
  { destruct (Hnone w) as (H1 & H2 & H3). auto. }
  destruct (ResolveACL srv _) as [e|aclObj] eqn:Hacl.
  { destruct (Hnone w) as (H1 & H2 & H3). auto. }
  destruct (AllowVariableOperation aclObj _ _ _ _) eqn:Hallow.
  2:{ destruct (Hnone w) as (H1 & H2 & H3). auto. }
  cbn [negb]. unfold blockingRPC. rewrite bind_unfold. unfold getState.
  destruct (Hrun aclObj (raftLog w) reply w) as [-> | (out & _ & ->)].
  { destruct (Hnone w) as (H1 & H2 & H3). auto. }
  cbn. split; [reflexivity|]. split; [reflexivity|]. split; [|exact Hrun].
  exists [CallDecrypt (Data out) (KeyID out)]. split; [reflexivity|].
  split; [repeat constructor; eauto|]. intros _. split; [reflexivity|]. eauto.
Qed.

(** X17: a run of Read's query function that returns an error leaves
    the reply's index as it found it, and the reply's Data either as it
    found it (the lookup failed) or, when a stored variable was found and
    its decryption failed, cleared to nil: a failed run never leaves data
    of its own in the reply. *)
Theorem Read_run_error_reply (args : VariablesReadRequest) (aclObj : ACL) (s : RaftLog)
    (reply reply' : VariablesReadResponse) (err : error) (w : World T) :
  snd (Read_run srv args aclObj s reply w) = Return (reply', Some err) ->
  readQueryMeta reply' = readQueryMeta reply
  /\ (reply' = reply
      /\ GetVariable srv s (QueryNamespace (readQueryOptions args)) (readPath args)
           = inl err
      \/ readData reply' = None
         /\ exists out,
              GetVariable srv s (QueryNamespace (readQueryOptions args))
                (readPath args) = inr (Some out)
              /\ (Decrypt srv (Data out) (KeyID out) = inl err
                  \/ exists b, Decrypt srv (Data out) (KeyID out) = inr b
                               /\ Unmarshal srv b = inl err)).
Proof.
  unfold Read_run.
  destruct (GetVariable srv _ _ _) as [e|[out|]] eqn:Hget;
    [cbn; intros [= <- <-]; auto| |cbn; intros [=]].
  rewrite bind_unfold. unfold decrypt. rewrite bind_unfold. unfold callDecrypt, ret.
  destruct (Decrypt srv (Data out) (KeyID out)) as [e|b] eqn:Hd; cbn.
  { intros [= <- <-]. split; [reflexivity|]. right. split; [reflexivity|]. eauto. }
  destruct (Unmarshal srv b) as [e|items] eqn:Hu; cbn.
  { intros [= <- <-]. split; [reflexivity|]. right. split; [reflexivity|]. eauto 6. }
  intros [=].
Qed.

(** The world after the timer registry answered a renewal for [ev], or
    the world as it was. *)
Lemma RenewLock_cases (args : VariablesRenewLockRequest)
    (reply : VariablesRenewLockResponse) (w : World T) :
  forwardRenew srv args reply = None ->
  (fst (RenewLock srv args reply w) = w
   /\ exists err, snd (RenewLock srv args reply w) = Return (reply, Some err))
  \/ exists aclObj ev lock,
       ResolveACL srv (wrAuthToken (renewWriteRequest args)) = inr aclObj
       /\ AllowVariableOperation aclObj (wrNamespace (renewWriteRequest args))
            (renewPath args) VariablesCapabilityWrite None = true
       /\ GetVariable srv (raftLog w) (wrNamespace (renewWriteRequest args))
            (renewPath args) = inr (Some ev)
       /\ Lock (veMeta ev) = Some lock /\ ID lock = LockID args
       /\ fst (RenewLock srv args reply w) = afterRenew w (EncryptedCopy ev)
       /\ (snd (RenewLock srv args reply w) = Return (reply, Some errVarIsLocked)
           \/ snd (RenewLock srv args reply w)
              = Return ({| VarMeta := Some (veMeta (EncryptedCopy ev));
                           renewWriteMeta :=
                             {| Index := ModifyIndex (veMeta ev) |} |}, None)).
Proof.
  intros Hfwd. unfold RenewLock. rewrite Hfwd.
  destruct (Authenticate srv _); [left; cbn; eauto|].
  destruct (ResolveACL srv _) as [e|aclObj] eqn:Hacl; [left; cbn; eauto|].
  destruct (AllowVariableOperation aclObj _ _ _ _) eqn:Hallow; [|left; cbn; eauto].
  cbn [negb]. destruct (RenewValidate args); [left; cbn; eauto|].
  rewrite !bind_unfold with (m := getState). unfold getState.
  destruct (Snapshot srv _); [left; cbn; eauto|].
  destruct (GetVariable srv _ _ _) as [e|[ev|]] eqn:Hget;
    [left; cbn; eauto | | left; cbn; eauto].
  destruct (Lock (veMeta ev)) as [lock|] eqn:Hlock; [|left; cbn; eauto].
  destruct (String.eqb (ID lock) (LockID args)) eqn:Hid; [|left; cbn; eauto].
  apply String.eqb_eq in Hid. cbn [negb].
  right. exists aclObj, ev, lock. do 5 (split; [first [assumption | reflexivity]|]).
  rewrite !bind_unfold. unfold callRenewTimer, afterRenew.
  destruct (RenewTTLTimer (EncryptedCopy ev) (timers w)) as [t [e|]]; cbn; auto.
Qed.

(** X18: RenewLock never adds to the replicated log and never calls the
    encrypter; the only thing it can change is the timer registry,
    through one call of RenewTTLTimer on a copy of the stored variable,
    and that call is made only for a caller whose ACL grants write on
    the path and who supplied the stored lock ID. *)
Theorem RenewLock_touches_only_the_timer (args : VariablesRenewLockRequest)
    (reply : VariablesRenewLockResponse) (w : World T) :
  let w' := fst (RenewLock srv args reply w) in
  raftLog w' = raftLog w /\ cryptoLog w' = cryptoLog w
  /\ (timers w' = timers w
      \/ exists aclObj ev lock,
           ResolveACL srv (wrAuthToken (renewWriteRequest args)) = inr aclObj
           /\ AllowVariableOperation aclObj (wrNamespace (renewWriteRequest args))
                (renewPath args) VariablesCapabilityWrite None = true
           /\ GetVariable srv (raftLog w) (wrNamespace (renewWriteRequest args))
                (renewPath args) = inr (Some ev)
           /\ Lock (veMeta ev) = Some lock /\ ID lock = LockID args
           /\ timers w' = fst (RenewTTLTimer (EncryptedCopy ev) (timers w))).
Proof.
  intros w'. subst w'.
  destruct (forwardRenew srv args reply) as [[r e]|] eqn:Hfwd.
  { unfold RenewLock. rewrite Hfwd. cbn. auto. }
  destruct (RenewLock_cases args reply w Hfwd)
    as [[-> _] | (aclObj & ev & lock & Hacl & Hallow & Hget & Hlock & Hid & -> & _)];
    [auto|].
  cbn. split; [reflexivity|]. split; [reflexivity|].
  right. exists aclObj, ev, lock. repeat split; first [assumption | reflexivity].
Qed.

(** X19: the reply of RenewLock is written only on success: whenever a
    renewal handled by this server returns an error, the reply is the
    one the caller passed in. *)
Theorem RenewLock_error_keeps_reply (args : VariablesRenewLockRequest)
    (reply reply' : VariablesRenewLockResponse) (err : error) (w : World T) :
  forwardRenew srv args reply = None ->
  snd (RenewLock srv args reply w) = Return (reply', Some err) ->
  reply' = reply.
Proof.
  intros Hfwd Hrun.
  destruct (RenewLock_cases args reply w Hfwd)
    as [[_ [e He]] | (aclObj & ev & lock & _ & _ & _ & _ & _ & _ & [He|He])];
    rewrite He in Hrun; congruence.
Qed.

(** X20: a renewal for a path that holds no variable is answered with
    errVarNotFound (coded 404), and one for a variable that holds no
    lock with errLockNotFound (coded 409); neither touches the timer
    registry or anything else. *)
Theorem RenewLock_missing (args : VariablesRenewLockRequest)
    (reply : VariablesRenewLockResponse) (aclObj : ACL) (w : World T) :
  let token := wrAuthToken (renewWriteRequest args) in
  let ns := wrNamespace (renewWriteRequest args) in
  forwardRenew srv args reply = None ->
  Authenticate srv token = None ->
  ResolveACL srv token = inr aclObj ->
  AllowVariableOperation aclObj ns (renewPath args) VariablesCapabilityWrite None = true ->
  RenewValidate args = None ->
  Snapshot srv (raftLog w) = None ->
  (GetVariable srv (raftLog w) ns (renewPath args) = inr None ->
   RenewLock srv args reply w = (w, Return (reply, Some (ErrRPCCoded 404
                                                           "variable doesn't exist"))))
  /\ (forall ev,
        GetVariable srv (raftLog w) ns (renewPath args) = inr (Some ev) ->
        Lock (veMeta ev) = None ->
        RenewLock srv args reply w =
          (w, Return (reply, Some (ErrRPCCoded 409 "variable doesn't hold a lock")))).
Proof.
  intros token ns Hfwd Hauth Hacl Hallow Hval Hsnap. subst token ns. split.
  - intros Hget. unfold RenewLock. rewrite Hfwd, Hauth, Hacl, Hallow, Hval. cbn [negb].
    rewrite bind_unfold. unfold getState. rewrite Hsnap, Hget. reflexivity.
  - intros ev Hget Hlock. unfold RenewLock.
    rewrite Hfwd, Hauth, Hacl, Hallow, Hval. cbn [negb].
    rewrite bind_unfold. unfold getState. rewrite Hsnap, Hget, Hlock. reflexivity.
Qed.

(** X21: a renewal by a caller whose ACL does not grant write on the
    path is answered with ErrPermissionDenied before the request is
    validated and before the state is looked at: the world is unchanged
    even when the lock ID is the right one. *)
Theorem RenewLock_requires_write (args : VariablesRenewLockRequest)
    (reply : VariablesRenewLockResponse) (aclObj : ACL) (w : World T) :
  forwardRenew srv args reply = None ->
  ResolveACL srv (wrAuthToken (renewWriteRequest args)) = inr aclObj ->
  AllowVariableOperation aclObj (wrNamespace (renewWriteRequest args)) (renewPath args)
    VariablesCapabilityWrite None = false ->
  RenewLock srv args reply w = (w, Return (reply, Some ErrPermissionDenied)).
Proof.
  intros Hfwd Hacl Hdeny. unfold RenewLock. rewrite Hfwd, Hacl, Hdeny.
  destruct (Authenticate srv _); reflexivity.
Qed.

End MoreReadRenewFacts.

Lemma Read_run_error_reply_witness :
  let stale := {| readData := Some (Demo.var "default" "old" None None);
                  readQueryMeta := {| qmIndex := 3 |} |} in
  let cleared := {| readData := None; readQueryMeta := {| qmIndex := 3 |} |} in
  snd (@Read_run Demo.demoStructs Demo.Registry DemoMore.brokenSrv
         (Demo.readRequest "reader" "a/b") Demo.readerACL [] stale Demo.world0)
    = Return (cleared, Some (ErrExternal "no such key"))
  /\ readQueryMeta cleared = readQueryMeta stale.
Proof.
  intros stale cleared. split; [reflexivity|].
  exact (proj1 (@Read_run_error_reply Demo.demoStructs Demo.Registry DemoMore.brokenSrv
                  (Demo.readRequest "reader" "a/b") Demo.readerACL [] stale cleared
                  (ErrExternal "no such key") Demo.world0 eq_refl)).
Defined.

Lemma RenewLock_error_keeps_reply_witness :
  snd (Demo.renewLock (Demo.renewRequest "writer" "lock-2") Demo.emptyRenewReply
         Demo.world0)
    = Return (Demo.emptyRenewReply, Some errVarIsLocked)
  /\ Demo.emptyRenewReply = Demo.emptyRenewReply.
Proof.
  split; [reflexivity|].
  exact (@RenewLock_error_keeps_reply Demo.demoStructs Demo.Registry
           Demo.registryTimers Demo.srv (Demo.renewRequest "writer" "lock-2")
           Demo.emptyRenewReply Demo.emptyRenewReply errVarIsLocked Demo.world0
           eq_refl eq_refl).
Defined.

Lemma RenewLock_missing_witness :
  let args := {| renewPath := "no/such"; LockID := "lock-1";
                 renewWriteRequest :=
                   {| wrRegion := "global"; wrNamespace := "default";
                      wrAuthToken := "writer" |} |} in
  Demo.renewLock args Demo.emptyRenewReply Demo.world0
    = (Demo.world0, Return (Demo.emptyRenewReply, Some errVarNotFound)).
Proof.
  intros args.
  exact (proj1 (@RenewLock_missing Demo.demoStructs Demo.Registry Demo.registryTimers
                  Demo.srv args Demo.emptyRenewReply Demo.writerACL Demo.world0
                  eq_refl eq_refl eq_refl eq_refl eq_refl eq_refl) eq_refl).
Defined.

Lemma RenewLock_requires_write_witness :
  Demo.renewLock (Demo.renewRequest "reader" "lock-1") Demo.emptyRenewReply Demo.world0
    = (Demo.world0, Return (Demo.emptyRenewReply, Some ErrPermissionDenied)).
Proof.
  exact (@RenewLock_requires_write Demo.demoStructs Demo.Registry Demo.registryTimers
           Demo.srv (Demo.renewRequest "reader" "lock-1") Demo.emptyRenewReply
           Demo.readerACL Demo.world0 eq_refl eq_refl eq_refl).
Defined.

(** ** Properties of List and listAllVariables *)

Section ListFacts.
Context {structs : Structs} {T P : Type}.
Variable srv : Server.
Variable lister : Lister P.

(** Every way a listing handled by this server can end: with an error
    and the reply untouched, or, for a caller whose ACL resolved, with a
    page the paginator made from one of the two iterators with the
    selector and the stub closure for that ACL. *)
Lemma List_cases (args : VariablesListRequest) (reply : VariablesListResponse)
    (w : World T) :
  forwardList lister args reply = None ->
  (exists err, List srv lister args reply w = (w, Return (reply, Some err)))
  \/ exists aclObj iter pager svs nextToken,
       ResolveACL srv (qoAuthToken (listQueryOptions args)) = inr aclObj
       /\ (if String.eqb (QueryNamespace (listQueryOptions args))
                (AllNamespacesSentinel lister)
           then Variables lister (raftLog w) = inr iter
           else GetVariablesByNamespaceAndPrefix lister (raftLog w)
                  (QueryNamespace (listQueryOptions args)) (Prefix args) = inr iter)
       /\ NewPaginator lister iter (listQueryOptions args) (listSelector srv args aclObj)
            (NextToken args) (listStub aclObj) = inr pager
       /\ Page lister pager = inr (svs, nextToken)
       /\ List srv lister args reply w =
            (w, Return ({| listData := svs; listNextToken := nextToken;
                           listQueryMeta :=
                             fst (listReplyQueryMeta lister (raftLog w)
                                    (listQueryMeta reply)) |},
                        snd (listReplyQueryMeta lister (raftLog w)
                               (listQueryMeta reply)))).
Proof.
  intros Hfwd. unfold List. rewrite Hfwd.
  destruct (Authenticate srv _); [left; eexists; reflexivity|].
  destruct (String.eqb _ _).
  - unfold listAllVariables.
    destruct (ResolveACL srv _) as [e|aclObj]; [left; eexists; reflexivity|].
    unfold blockingRPC. rewrite bind_unfold. unfold getState, listAllVariables_run.
    destruct (Variables lister (raftLog w)) as [e|iter] eqn:Hiter;
      [left; eexists; reflexivity|].
    destruct (NewPaginator lister iter _ _ _ _) as [e|pager] eqn:Hnew;
      [left; eexists; reflexivity|].
    destruct (Page lister pager) as [e|[svs nextToken]] eqn:Hpage;
      [left; eexists; reflexivity|].
    right. exists aclObj, iter, pager, svs, nextToken. auto.
  - destruct (ResolveACL srv _) as [e|aclObj]; [left; eexists; reflexivity|].
    unfold blockingRPC. rewrite bind_unfold. unfold getState, List_run.
    destruct (GetVariablesByNamespaceAndPrefix lister (raftLog w) _ _) as [e|iter]
      eqn:Hiter; [left; eexists; reflexivity|].
    destruct (NewPaginator lister iter _ _ _ _) as [e|pager] eqn:Hnew;
      [left; eexists; reflexivity|].
    destruct (Page lister pager) as [e|[svs nextToken]] eqn:Hpage;
      [left; eexists; reflexivity|].
    right. exists aclObj, iter, pager, svs, nextToken. auto.
Qed.

(** X22: listing only reads: List, and listAllVariables behind it,
    leave the replicated log, the timers and the encrypter alone;
    nothing is ever decrypted to list variables. *)
Theorem List_only_reads (args : VariablesListRequest) (reply : VariablesListResponse)
    (w : World T) :
  fst (List srv lister args reply w) = w.
Proof.
  destruct (forwardList lister args reply) as [[r e]|] eqn:Hfwd.
  { unfold List. rewrite Hfwd. reflexivity. }
  destruct (List_cases args reply w Hfwd) as [[err ->] | (a & i & p & s & n & H)];
    [reflexivity|].
  destruct H as (_ & _ & _ & _ & ->). reflexivity.
Qed.

(** X23: with a sound paginator, every stub a successful listing on
    this server returns is the stub of a stored variable that the
    iterator produced, whose path starts with the requested prefix,
    which the caller's ACL allows to list in the variable's own
    namespace (so also under the wildcard namespace), and whose lock is
    removed unless the caller is management; the rest of its metadata is
    the stored one. *)
Theorem List_items_authorized (args : VariablesListRequest)
    (reply reply' : VariablesListResponse) (aclObj : ACL) (w : World T) :
  soundPaginator lister ->
  forwardList lister args reply = None ->
  ResolveACL srv (qoAuthToken (listQueryOptions args)) = inr aclObj ->
  snd (List srv lister args reply w) = Return (reply', None) ->
  Forall
    (fun m =>
       exists v,
         (exists iter, In v iter /\
            (Variables lister (raftLog w) = inr iter \/
             GetVariablesByNamespaceAndPrefix lister (raftLog w)
               (QueryNamespace (listQueryOptions args)) (Prefix args) = inr iter))
         /\ String.prefix (Prefix args) (Path m) = true
         /\ AllowVariableOperation aclObj (Namespace m) (Path m) PolicyList
              (IdentityToACLClaim srv (qoAuthToken (listQueryOptions args))) = true
         /\ m = (if IsManagement aclObj then veMeta v else withLock None (veMeta v)))
    (listData reply').
Proof.
  intros Hsound Hfwd Hacl Hrun.
  destruct (List_cases args reply w Hfwd)
    as [[err He] | (a & iter & pager & svs & tok & Ha & Hiter & Hnew & Hpage & He)];
    rewrite He in Hrun; [discriminate|].
  rewrite Hacl in Ha. injection Ha as <-.
  cbn [snd] in Hrun. injection Hrun as <- _. cbn [listData].
  pose proof (Hsound _ _ _ _ _ _ _ _ Hnew Hpage) as Hall.
  eapply Forall_impl; [exact Hall|].
  intros m (v & Hin & Hsel & Hstub). exists v.
  unfold listSelector in Hsel. unfold listStub in Hstub.
  destruct (String.prefix (Prefix args) (Path (veMeta v))) eqn:Hpre;
    [|discriminate Hsel].
  cbn [negb] in Hsel. injection Hstub as <-.
  split.
  { exists iter. split; [exact Hin|].
    destruct (String.eqb _ _) in Hiter; auto. }
  destruct (IsManagement aclObj); cbn; auto.
Qed.

End ListFacts.

Lemma collect_sound (iter : list VariableEncrypted) (selector : VariableEncrypted -> bool)
    (stub : VariableEncrypted -> error + VariableMetadata) (svs : list VariableMetadata) :
  DemoMore.collect iter selector stub = inr svs ->
  Forall (fun m => exists v, In v iter /\ selector v = true /\ stub v = inr m) svs.
Proof.
  revert svs. induction iter as [|v rest IH]; intros svs; simpl.
  - intros [= <-]. constructor.
  - destruct (selector v) eqn:Hsel.
    + destruct (stub v) as [e|m] eqn:Hstub; [discriminate|].
      destruct (DemoMore.collect rest selector stub) as [e|ms]; [discriminate|].
      intros [= <-]. constructor; [eauto|].
      eapply Forall_impl; [apply IH; reflexivity|].
      intros m' (v' & Hin & Hs & Hst). eauto.
    + intros Hc. eapply Forall_impl; [apply IH; exact Hc|].
      intros m' (v' & Hin & Hs & Hst). eauto.
Qed.

Lemma demo_paginator_sound : soundPaginator DemoMore.lister.
Proof.
  intros iter opts selector token stub pager svs nextToken Hnew Hpage.
  cbn in Hnew, Hpage. injection Hpage as <- _. apply collect_sound. exact Hnew.
Qed.

Lemma List_items_authorized_witness :
  let args := DemoMore.listRequest "reader" "*" "a/" in
  exists reply',
    snd (DemoMore.listVariables args DemoMore.emptyListReply Demo.world0) = Return (reply', None)
    /\ length (listData reply') = 2%nat
    /\ Forall (fun m => Lock m = None /\ String.prefix "a/" (Path m) = true)
         (listData reply').
Proof.
  intros args. eexists. split; [reflexivity|]. split; [reflexivity|].
  eapply Forall_impl;
    [exact (@List_items_authorized Demo.demoStructs Demo.Registry
              (list VariableMetadata) Demo.srv DemoMore.lister args
              DemoMore.emptyListReply _ Demo.readerACL Demo.world0
              demo_paginator_sound eq_refl eq_refl eq_refl)|].
  intros m (v & _ & Hpre & _ & Hm). split; [|exact Hpre].
  rewrite Hm. reflexivity.
Defined.

Section MoreListFacts.
Context {structs : Structs} {T P : Type}.
Variable srv : Server.
Variable lister : Lister P.

(** X24: a run of the query function of a listing (of List or of
    listAllVariables) that returns an error leaves the reply as it found
    it, with one exception: when the page was read and it is the index
    lookup after it that failed, the reply holds the page and the next
    token that this request's paginator returned, and the query meta
    that the lookup left. *)
Theorem List_run_error_reply (args : VariablesListRequest) (aclObj : ACL)
    (stateStore : RaftLog) (reply reply' : VariablesListResponse) (err : error)
    (w : World T) :
  snd (List_run srv lister args aclObj stateStore reply w) = Return (reply', Some err)
  \/ snd (listAllVariables_run srv lister args aclObj stateStore reply w)
       = Return (reply', Some err) ->
  reply' = reply
  \/ exists iter pager,
       (GetVariablesByNamespaceAndPrefix lister stateStore
          (QueryNamespace (listQueryOptions args)) (Prefix args) = inr iter
        \/ Variables lister stateStore = inr iter)
       /\ NewPaginator lister iter (listQueryOptions args) (listSelector srv args aclObj)
            (NextToken args) (listStub aclObj) = inr pager
       /\ Page lister pager = inr (listData reply', listNextToken reply')
       /\ listReplyQueryMeta lister stateStore (listQueryMeta reply)
            = (listQueryMeta reply', Some err).
Proof.
  unfold List_run, listAllVariables_run. intros [Hrun | Hrun]; revert Hrun.
  - destruct (GetVariablesByNamespaceAndPrefix lister stateStore _ _) as [e|iter] eqn:Hiter;
      [cbn; intros [= <- <-]; auto|].
    destruct (NewPaginator lister iter _ _ _ _) as [e|pager] eqn:Hnew;
      [cbn; intros [= <- <-]; auto|].
    destruct (Page lister pager) as [e|[svs nextToken]] eqn:Hpage;
      [cbn; intros [= <- <-]; auto|].
    cbn. intros [= <- Herr]. right. exists iter, pager. cbn.
    split; [auto|]. split; [exact Hnew|]. split; [exact Hpage|].
    destruct (listReplyQueryMeta lister stateStore (listQueryMeta reply)) as [qm eo].
    cbn in *. congruence.
  - destruct (Variables lister stateStore) as [e|iter] eqn:Hiter;
      [cbn; intros [= <- <-]; auto|].
    destruct (NewPaginator lister iter _ _ _ _) as [e|pager] eqn:Hnew;
      [cbn; intros [= <- <-]; auto|].
    destruct (Page lister pager) as [e|[svs nextToken]] eqn:Hpage;
      [cbn; intros [= <- <-]; auto|].
    cbn. intros [= <- Herr]. right. exists iter, pager. cbn.
    split; [auto|]. split; [exact Hnew|]. split; [exact Hpage|].
    destruct (listReplyQueryMeta lister stateStore (listQueryMeta reply)) as [qm eo].
    cbn in *. congruence.
Qed.

Lemma append_empty (s : string) : s +:+ "" = s.
Proof.
  induction s as [|c s IH]; [reflexivity|].
  change (String c s +:+ "") with (String c (s +:+ "")). now rewrite IH.
Qed.

Lemma NewErrRPCCodedf_paginator (e : error) :
  NewErrRPCCodedf StatusBadRequest "failed to create result paginator: %v" e
    = ErrRPCCoded 400 ("failed to create result paginator: " +:+ ErrorText e)
  /\ NewErrRPCCodedf StatusBadRequest "failed to read result page: %v" e
       = ErrRPCCoded 400 ("failed to read result page: " +:+ ErrorText e).
Proof.
  unfold NewErrRPCCodedf. cbn. rewrite append_empty. split; reflexivity.
Qed.

(** X25: when the paginator cannot be created, or its page cannot be
    read, a listing for one namespace answers with an error coded 400
    whose text is the fixed prefix followed by the text of the
    paginator's error, and leaves the world and the reply as they
    were. *)
Theorem List_paginator_errors (args : VariablesListRequest)
    (reply : VariablesListResponse) (aclObj : ACL) (iter : list VariableEncrypted)
    (w : World T) :
  forwardList lister args reply = None ->
  Authenticate srv (qoAuthToken (listQueryOptions args)) = None ->
  String.eqb (QueryNamespace (listQueryOptions args)) (AllNamespacesSentinel lister)
    = false ->
  ResolveACL srv (qoAuthToken (listQueryOptions args)) = inr aclObj ->
  GetVariablesByNamespaceAndPrefix lister (raftLog w)
    (QueryNamespace (listQueryOptions args)) (Prefix args) = inr iter ->
  (forall e,
     NewPaginator lister iter (listQueryOptions args) (listSelector srv args aclObj)
       (NextToken args) (listStub aclObj) = inl e ->
     List srv lister args reply w =
       (w, Return (reply,
                   Some (ErrRPCCoded 400
                           ("failed to create result paginator: " +:+ ErrorText e)))))
  /\ (forall pager e,
        NewPaginator lister iter (listQueryOptions args) (listSelector srv args aclObj)
          (NextToken args) (listStub aclObj) = inr pager ->
        Page lister pager = inl e ->
        List srv lister args reply w =
          (w, Return (reply,
                      Some (ErrRPCCoded 400
                              ("failed to read result page: " +:+ ErrorText e))))).
Proof.
  intros Hfwd Hauth Hns Hacl Hiter. split.
  - intros e Hnew. unfold List. rewrite Hfwd, Hauth, Hns, Hacl.
    unfold blockingRPC. rewrite bind_unfold. unfold getState, List_run.
    rewrite Hiter, Hnew, (proj1 (NewErrRPCCodedf_paginator e)). reflexivity.
  - intros pager e Hnew Hpage. unfold List. rewrite Hfwd, Hauth, Hns, Hacl.
    unfold blockingRPC. rewrite bind_unfold. unfold getState, List_run.
    rewrite Hiter, Hnew, Hpage, (proj2 (NewErrRPCCodedf_paginator e)). reflexivity.
Qed.

End MoreListFacts.

Lemma List_run_error_reply_witness :
  let args := DemoMore.listRequest "reader" "default" "a/" in
  snd (@List_run Demo.demoStructs Demo.Registry (list VariableMetadata) Demo.srv
         DemoMore.refusingLister args Demo.readerACL [] DemoMore.emptyListReply
         Demo.world0)
    = Return (DemoMore.emptyListReply,
              Some (ErrRPCCoded 400 "failed to create result paginator: bad token"))
  /\ (DemoMore.emptyListReply = DemoMore.emptyListReply
      \/ exists iter pager,
           (GetVariablesByNamespaceAndPrefix DemoMore.refusingLister []
              (@QueryNamespace Demo.demoStructs (listQueryOptions args)) (Prefix args)
              = inr iter
            \/ Variables DemoMore.refusingLister [] = inr iter)
           /\ NewPaginator DemoMore.refusingLister iter (listQueryOptions args)
                (listSelector Demo.srv args Demo.readerACL) (NextToken args)
                (listStub Demo.readerACL) = inr pager
           /\ Page DemoMore.refusingLister pager
                = inr (listData DemoMore.emptyListReply,
                       listNextToken DemoMore.emptyListReply)
           /\ listReplyQueryMeta DemoMore.refusingLister []
                (listQueryMeta DemoMore.emptyListReply)
                = (listQueryMeta DemoMore.emptyListReply,
                   Some (ErrRPCCoded 400 "failed to create result paginator: bad token"))).
Proof.
  intros args. split; [reflexivity|].
  exact (@List_run_error_reply Demo.demoStructs Demo.Registry (list VariableMetadata)
           Demo.srv DemoMore.refusingLister args Demo.readerACL []
           DemoMore.emptyListReply DemoMore.emptyListReply
           (ErrRPCCoded 400 "failed to create result paginator: bad token")
           Demo.world0 (or_introl eq_refl)).
Defined.

Lemma List_paginator_errors_witness :
  DemoMore.refusingList (DemoMore.listRequest "reader" "default" "a/")
    DemoMore.emptyListReply Demo.world0
    = (Demo.world0,
       Return (DemoMore.emptyListReply,
               Some (ErrRPCCoded 400 "failed to create result paginator: bad token"))).
Proof.
  exact (proj1 (@List_paginator_errors Demo.demoStructs Demo.Registry
                  (list VariableMetadata) Demo.srv DemoMore.refusingLister
                  (DemoMore.listRequest "reader" "default" "a/")
                  DemoMore.emptyListReply Demo.readerACL [Demo.storedVar] Demo.world0
                  eq_refl eq_refl eq_refl eq_refl eq_refl)
           (ErrExternal "bad token") eq_refl).
Defined.
